(** * Provider failover and model routing of claude-code-router

    A shallow embedding of [FailoverManager] (failover.ts) and of the
    model-selection chain [getUseModel] / [router] (utils/router.ts),
    followed by the properties established about them.

    Conventions of the embedding:
    - A JavaScript [Map<string, FailoverConfig>] is a [gmap string
      FailoverConfig]; the records stored in it are mutated in place by
      the source, which is an [insert] at the same key here.
    - [Date.now()] is an explicit argument [now] (milliseconds, [Z]).
    - A function that can [throw] returns a [result]; [try]/[catch] is
      the combinator [try_catch].
    - Strings are [string]; [toLowerCase] folds the ASCII letters and
      leaves every other code unit as it is.
    - [console.warn] and [req.log] calls write to a log that no function
      reads back; they are left out. *)

From Stdlib Require Import ZArith String Ascii List Lia Bool Btauto.
From stdpp Require Import gmap strings list fin_maps.
Import ListNotations.

Local Open Scope Z_scope.

(** ** Exceptions *)

Inductive result (A : Type) : Type :=
| Ok (a : A)
| Throw (msg : string).

Arguments Ok {A} a.
Arguments Throw {A} msg.

#[global] Instance result_ret : MRet result := fun A a => Ok a.

#[global] Instance result_bind : MBind result := fun A B k c =>
  match c with
  | Ok a => k a
  | Throw msg => Throw msg
  end.

(** [try { body } catch (e) { handler }] *)
Definition try_catch {A : Type} (body : result A) (handler : string -> result A)
  : result A :=
  match body with
  | Ok a => Ok a
  | Throw msg => handler msg
  end.

(** ** JavaScript string helpers *)

Module JS.

(** A string is truthy when it is not empty. *)
Definition truthy (s : string) : bool :=
  match s with
  | EmptyString => false
  | String _ _ => true
  end.

Definition is_upper (c : ascii) : bool :=
  let n := nat_of_ascii c in (65 <=? n)%nat && (n <=? 90)%nat.

Definition lower_char (c : ascii) : ascii :=
  if is_upper c then ascii_of_nat (nat_of_ascii c + 32) else c.

(** A string of ASCII characters: every code unit is below 128. *)
Definition isAscii (s : string) : bool :=
  forallb (fun c => (nat_of_ascii c <? 128)%nat) (list_ascii_of_string s).

(** [s.toLowerCase()] for a string of ASCII characters: the letters A-Z
    are folded and nothing else changes. On other strings JavaScript also
    folds the cased letters outside ASCII, which this function leaves as
    they are; a statement about lower-casing a string that need not be
    ASCII either carries the hypothesis [isAscii] or concerns a comparison
    with an ASCII literal that no other letter can produce. *)
Fixpoint toLowerCase (s : string) : string :=
  match s with
  | EmptyString => EmptyString
  | String c s' => String (lower_char c) (toLowerCase s')
  end.

(** [s.startsWith(p)] *)
Fixpoint startsWith (s p : string) {struct p} : bool :=
  match p, s with
  | EmptyString, _ => true
  | String _ _, EmptyString => false
  | String a p', String b s' => Ascii.eqb a b && startsWith s' p'
  end.

(** [s.includes(needle)] *)
Fixpoint includes (s needle : string) : bool :=
  startsWith s needle ||
  match s with
  | EmptyString => false
  | String _ s' => includes s' needle
  end.

Fixpoint drop (n : nat) (s : string) : string :=
  match n, s with
  | O, _ => s
  | S _, EmptyString => EmptyString
  | S n', String _ s' => drop n' s'
  end.

(** The text before and after the first occurrence of [needle] in [s]. *)
Fixpoint cut (needle s : string) : option (string * string) :=
  if startsWith s needle then Some (EmptyString, drop (String.length needle) s)
  else match s with
       | EmptyString => None
       | String c s' =>
           match cut needle s' with
           | Some (before, after) => Some (String c before, after)
           | None => None
           end
       end.

(** [s.replace(pattern, replacement)] with a string pattern: the first
    occurrence only. The replacements used by the source contain no [$]. *)
Definition replace (s pattern replacement : string) : string :=
  match cut pattern s with
  | Some (before, after) => before +:+ replacement +:+ after
  | None => s
  end.

(** [s.split(sep)] for a one-character separator. *)
Fixpoint split_aux (sep : ascii) (cur : string) (s : string) : list string :=
  match s with
  | EmptyString => [String.rev cur]
  | String c s' =>
      if Ascii.eqb c sep then String.rev cur :: split_aux sep EmptyString s'
      else split_aux sep (String c cur) s'
  end.

Definition split (s : string) (sep : ascii) : list string :=
  split_aux sep EmptyString s.

End JS.

(** ** failover.ts *)

Module Failover.

Record FailoverConfig : Type := mkFailoverConfig {
  providers : list string;
  currentIndex : nat;
  lastFailureTime : Z;
  failureCount : Z
}.

Abbreviation Store := (gmap string FailoverConfig).

Definition FAILURE_COOLDOWN_MS : Z := 30000.
Definition MAX_FAILURES : Z := 3.

(** [sessionId ? `session_${sessionId}` : 'global'] *)
Definition configKeyOf (sessionId : option string) : string :=
  match sessionId with
  | Some sid => if JS.truthy sid then "session_" +:+ sid else "global"
  | None => "global"
  end%string.

(** The error objects handed to [recordFailure]: the fields that
    [isRetryableError] looks at. [response_status] is
    [error.response?.status]. *)
Record ErrorInfo : Type := mkErrorInfo {
  status : option Z;
  response_status : option Z;
  code : option string;
  message : option string
}.

Definition retryableStatusCodes : list Z := [429; 500; 502; 503; 504; 408; 524].

(** [st && retryableStatusCodes.includes(st)] *)
Definition statusRetryable (st : option Z) : bool :=
  match st with
  | Some n => negb (n =? 0) && existsb (Z.eqb n) retryableStatusCodes
  | None => false
  end.

Definition codeIs (c : option string) (lit : string) : bool :=
  match c with
  | Some s => String.eqb s lit
  | None => false
  end.

(** [error.message?.includes(lit)] *)
Definition messageIncludes (m : option string) (lit : string) : bool :=
  match m with
  | Some s => JS.includes s lit
  | None => false
  end.

(** [error.message?.toLowerCase().includes(lit)] *)
Definition messageLowerIncludes (m : option string) (lit : string) : bool :=
  match m with
  | Some s => JS.includes (JS.toLowerCase s) lit
  | None => false
  end.

Definition isRetryableError (error : option ErrorInfo) : bool :=
  match error with
  | None => false
  | Some e =>
      if statusRetryable (status e) then true
      else if statusRetryable (response_status e) then true
      else if codeIs (code e) "ECONNABORTED" || codeIs (code e) "ETIMEDOUT"
              || messageIncludes (message e) "timeout" then true
      else if codeIs (code e) "ENOTFOUND" || codeIs (code e) "ECONNREFUSED"
              || codeIs (code e) "ECONNRESET" then true
      else if messageLowerIncludes (message e) "rate limit"
              || messageLowerIncludes (message e) "too many requests" then true
      else false
  end%string.

(** The filter predicate of [getAvailableProviders]; it does not look at
    the provider it is asked about. *)
Definition providerAvailable (config : FailoverConfig) (now : Z) (provider : string)
  : bool :=
  if (failureCount config =? 0)
     || (now - lastFailureTime config >? FAILURE_COOLDOWN_MS)
  then true
  else failureCount config <? MAX_FAILURES.

Definition getAvailableProviders (config : FailoverConfig) (now : Z) : list string :=
  List.filter (providerAvailable config now) (providers config).

Definition resetFailoverConfig (sessionId : option string) (store : Store) : Store :=
  delete (configKeyOf sessionId) store.

Definition setCurrentIndex (config : FailoverConfig) (i : nat) : FailoverConfig :=
  {| providers := providers config;
     currentIndex := i;
     lastFailureTime := lastFailureTime config;
     failureCount := failureCount config |}.

Definition setFailure (config : FailoverConfig) (count time : Z) : FailoverConfig :=
  {| providers := providers config;
     currentIndex := currentIndex config;
     lastFailureTime := time;
     failureCount := count |}.

(** The record for [configKey], created and stored when there is none. *)
Definition getOrCreate (configKey : string) (candidates : list string) (store : Store)
  : FailoverConfig * Store :=
  match store !! configKey with
  | Some config => (config, store)
  | None =>
      let config := {| providers := candidates;
                       currentIndex := 0;
                       lastFailureTime := 0;
                       failureCount := 0 |} in
      (config, <[configKey := config]> store)
  end.

Definition getNextProvider (candidates : list string) (sessionId : option string)
    (now : Z) (store : Store) : result (string * Store) :=
  match candidates with
  | [] => Throw "No providers available"
  | [only] => Ok (only, store)
  | first :: _ :: _ =>
      let configKey := configKeyOf sessionId in
      let '(config, store1) := getOrCreate configKey candidates store in
      let availableProviders := getAvailableProviders config now in
      match availableProviders with
      | [] =>
          (* this.resetFailoverConfig(configKey): the key is passed where
             a session id is expected *)
          Ok (first, resetFailoverConfig (Some configKey) store1)
      | a0 :: _ =>
          let n := List.length availableProviders in
          let nextIndex := (currentIndex config mod n)%nat in
          let selectedProvider := nth nextIndex availableProviders a0 in
          let config' := setCurrentIndex config ((currentIndex config + 1) mod n)%nat in
          Ok (selectedProvider, <[configKey := config']> store1)
      end
  end.

Definition recordFailure (provider : string) (sessionId : option string)
    (error : option ErrorInfo) (now : Z) (store : Store) : Store :=
  let configKey := configKeyOf sessionId in
  match store !! configKey with
  | None => store
  | Some config =>
      if isRetryableError error
      then <[configKey := setFailure config (failureCount config + 1) now]> store
      else store
  end.

Definition recordSuccess (provider : string) (sessionId : option string)
    (store : Store) : Store :=
  let configKey := configKeyOf sessionId in
  match store !! configKey with
  | None => store
  | Some config => <[configKey := setFailure config 0 0]> store
  end.

(** Sequential calls of [getNextProvider] with the same arguments, one
    per clock reading in [nows]; the providers returned, in call order. *)
Fixpoint selectMany (candidates : list string) (sessionId : option string)
    (nows : list Z) (store : Store) : result (list string * Store) :=
  match nows with
  | [] => Ok ([], store)
  | now :: rest =>
      '(p, store1) ← getNextProvider candidates sessionId now store;
      '(ps, store2) ← selectMany candidates sessionId rest store1;
      Ok (p :: ps, store2)
  end.

End Failover.

(** ** utils/router.ts *)

Module Router.

Import Failover.

(** A router configuration value: [string | string[] | undefined]. *)
Inductive RouterValue : Type :=
| Undefined
| Single (s : string)
| Candidates (l : list string).

(** JavaScript truthiness: [undefined] and the empty string are falsy,
    every array is truthy. *)
Definition truthyValue (v : RouterValue) : bool :=
  match v with
  | Undefined => false
  | Single s => JS.truthy s
  | Candidates _ => true
  end.

Definition getModelFromConfig (routerConfig : RouterValue)
    (sessionId : option string) (now : Z) (store : Store)
  : result (string * Store) :=
  match routerConfig with
  | Undefined => Throw "No router configuration provided"
  | Single s =>
      if JS.truthy s then Ok (s, store)
      else Throw "No router configuration provided"
  | Candidates [] => Throw "Empty provider array"
  | Candidates l => getNextProvider l sessionId now store
  end.

Record Provider : Type := mkProvider {
  name : string;
  models : option (list string)
}.

Record RouterSection : Type := mkRouterSection {
  default : RouterValue;
  longContext : RouterValue;
  background : RouterValue;
  think : RouterValue;
  webSearch : RouterValue;
  longContextThreshold : option Z
}.

Record Config : Type := mkConfig {
  Providers : list Provider;
  Router : RouterSection
}.

(** The parts of the request that the selection chain reads: the
    requested model ([None] when [req.body.model] is undefined), the
    [text] of each segment of [req.body.system] (a system prompt given
    as one string has no segment with a text), whether
    [req.body.thinking] is truthy, the [type] of each entry of
    [req.body.tools] ([None] when it is not an array), and
    [req.sessionId]. *)
Record Request : Type := mkRequest {
  model : option string;
  system : list (option string);
  thinking : bool;
  tools : option (list (option string));
  sessionId : option string
}.

Definition setSystemText (req : Request) (i : nat) (t : string) : Request :=
  {| model := model req;
     system := <[i := Some t]> (system req);
     thinking := thinking req;
     tools := tools req;
     sessionId := sessionId req |}.

(** [s === o] where [o] may be undefined. *)
Definition strictEq (s : string) (o : option string) : bool :=
  match o with
  | Some x => String.eqb s x
  | None => false
  end.

(** The first branch of [getUseModel]: the requested model contains a
    comma. The configured names are lower-cased with [JS.toLowerCase],
    which is JavaScript's [toLowerCase] on ASCII names. *)
Definition explicitOverride (requested : string) (config : Config) : string :=
  let parts := JS.split requested ","%char in
  let provider := parts !! 0%nat in
  let model := parts !! 1%nat in
  let finalProvider :=
    List.find (fun p => strictEq (JS.toLowerCase (name p)) provider)
              (Providers config) in
  let finalModel :=
    match finalProvider with
    | Some p =>
        match models p with
        | Some ms => List.find (fun m => strictEq (JS.toLowerCase m) model) ms
        | None => None
        end
    | None => None
    end in
  match finalProvider, finalModel with
  | Some p, Some m =>
      if JS.truthy m then (name p +:+ "," +:+ m)%string else requested
  | _, _ => requested
  end.

Definition SUBAGENT_OPEN : string := "<CCR-SUBAGENT-MODEL>".
Definition SUBAGENT_CLOSE : string := "</CCR-SUBAGENT-MODEL>".

(** [text.match(/<CCR-SUBAGENT-MODEL>(.*?)<\/CCR-SUBAGENT-MODEL>/s)]:
    the capture group of the leftmost match, which starts at the first
    opening tag and, the group being lazy, ends at the first closing tag
    after it. *)
Definition matchSubagentModel (text : string) : option string :=
  match JS.cut SUBAGENT_OPEN text with
  | Some (_, after) =>
      match JS.cut SUBAGENT_CLOSE after with
      | Some (captured, _) => Some captured
      | None => None
      end
  | None => None
  end.

(** The sub-agent marker in the second system segment. *)
Definition subagentModel (req : Request) : option (string * Request) :=
  match system req !! 1%nat with
  | Some (Some text) =>
      if JS.startsWith text SUBAGENT_OPEN then
        match matchSubagentModel text with
        | Some m =>
            Some (m, setSystemText req 1
                       (JS.replace text (SUBAGENT_OPEN +:+ m +:+ SUBAGENT_CLOSE) ""))
        | None => None
        end
      else None
  | _ => None
  end.

Definition toolStartsWith (o : option string) (p : string) : bool :=
  match o with
  | Some t => JS.startsWith t p
  | None => false
  end.

Definition usesLongContext (tokenCount : Z) (config : Config)
    (lastUsage : option Z) : bool :=
  let longContextThreshold :=
    match longContextThreshold (Router config) with
    | Some t => if t =? 0 then 60000 else t
    | None => 60000
    end in
  let lastUsageThreshold :=
    match lastUsage with
    | Some input_tokens =>
        (input_tokens >? longContextThreshold) && (tokenCount >? 20000)
    | None => false
    end in
  let tokenCountThreshold := tokenCount >? longContextThreshold in
  (lastUsageThreshold || tokenCountThreshold)
  && truthyValue (longContext (Router config)).

(** The rules after the sub-agent marker: background, think, web search,
    default. *)
Definition routeByKind (requested : string) (req : Request) (config : Config)
  : RouterValue :=
  if JS.startsWith requested "claude-3-5-haiku"
     && truthyValue (background (Router config))
  then background (Router config)
  else if thinking req && truthyValue (think (Router config))
  then think (Router config)
  else if match tools req with
          | Some ts => existsb (fun t => toolStartsWith t "web_search") ts
          | None => false
          end && truthyValue (webSearch (Router config))
  then webSearch (Router config)
  else default (Router config).

Definition getUseModel (req : Request) (tokenCount : Z) (config : Config)
    (lastUsage : option Z) (now : Z) (store : Store)
  : result (string * Request * Store) :=
  match model req with
  | None => Throw "TypeError: req.body.model is undefined"
  | Some requested =>
      if JS.includes requested "," then
        Ok (explicitOverride requested config, req, store)
      else if usesLongContext tokenCount config lastUsage then
        '(m, store') ← getModelFromConfig (longContext (Router config))
                         (sessionId req) now store;
        Ok (m, req, store')
      else
        match subagentModel req with
        | Some (m, req') => Ok (m, req', store)
        | None =>
            '(m, store') ← getModelFromConfig (routeByKind requested req config)
                             (sessionId req) now store;
            Ok (m, req, store')
        end
  end.

(** What [router] leaves behind: the value assigned to [req.body.model],
    the request and the failover store. *)
Record Routed : Type := mkRouted {
  assigned : RouterValue;
  request : Request;
  failover : Store
}.

(** The body of the [try] block of [router]. [tokenCount] is the outcome
    of [calculateTokenCount] (the tokenizer is external); [customRouter]
    is [None] when [config.CUSTOM_ROUTER_PATH] is not set and otherwise
    the outcome of loading and calling the custom router, taken as a
    function that touches neither the request nor the store. An
    exception of the custom router is caught on the spot and leaves
    [model] undefined. *)
Definition selectModel (req : Request) (tokenCount : result Z)
    (customRouter : option (result (option string))) (config : Config)
    (lastUsage : option Z) (now : Z) (store : Store) : result Routed :=
  count ← tokenCount;
  let model :=
    match customRouter with
    | Some (Ok v) => v
    | Some (Throw _) => None
    | None => None
    end in
  match model with
  | Some (String c m) => Ok (mkRouted (Single (String c m)) req store)
  | _ =>
      '(m, req', store') ← getUseModel req count config lastUsage now store;
      Ok (mkRouted (Single m) req' store')
  end.

(** The last resort of [router]: the first element of a non-empty
    default list, else the default value as it is. *)
Definition lastResort (d : RouterValue) : RouterValue :=
  match d with
  | Candidates (first :: _) => Single first
  | other => other
  end.

(** [router], from its [try] block on. The statements before it (reading
    the session id and the usage cache, rewriting the system prompt from
    a file) prepare [req] and [lastUsage]; they are [routerPrelude]
    below, and the whole function is [routerCall]. *)
Definition router (req : Request) (tokenCount : result Z)
    (customRouter : option (result (option string))) (config : Config)
    (lastUsage : option Z) (now : Z) (store : Store) : result Routed :=
  try_catch
    (selectModel req tokenCount customRouter config lastUsage now store)
    (fun error =>
       try_catch
         ('(m, store') ← getModelFromConfig (default (Router config))
                           (sessionId req) now store;
          Ok (mkRouted (Single m) req store'))
         (fun fallbackError =>
            Ok (mkRouted (lastResort (default (Router config))) req store))).

End Router.

(** * Auxiliary notions used in the statements *)

Import Failover.

Local Open Scope string_scope.
Local Open Scope list_scope.

(** A record without a failure on it: [i] is its rotation cursor. *)
Definition cleanRecord (candidates : list string) (i : nat) : FailoverConfig :=
  {| providers := candidates; currentIndex := i;
     lastFailureTime := 0; failureCount := 0 |}.

(** The providers served by [k] calls that start at cursor [i]. *)
Definition rotation (candidates : list string) (i k : nat) : list string :=
  map (fun j => nth ((i + j) mod List.length candidates) candidates "") (seq 0 k).

(** An error object that carries a status and nothing else. *)
Definition httpError (st : Z) : option ErrorInfo :=
  Some {| status := Some st; response_status := None;
          code := None; message := None |}.

(** An error object that carries a message and nothing else. *)
Definition messageError (msg : string) : option ErrorInfo :=
  Some {| status := None; response_status := None;
          code := None; message := Some msg |}.

(** [x] is the element that [l.find(f)] returns: the first one, in list
    order, that satisfies [f]. *)
Definition FirstSuch {A : Type} (f : A -> bool) (l : list A) (x : A) : Prop :=
  exists before after,
    l = before ++ x :: after /\ f x = true /\ Forall (fun y => f y = false) before.

Definition hasUpper (s : string) : bool :=
  existsb JS.is_upper (list_ascii_of_string s).

(** The store of a run that selects once for session [s1] from
    [a, b] at time 1000 and then records three failures with status 500
    for it, at times 2000, 3000 and 4000. *)
Definition afterThreeFailures : Store :=
  match getNextProvider ["a"; "b"] (Some "s1") 1000 ∅ with
  | Ok (_, store) =>
      recordFailure "a" (Some "s1") (httpError 500) 4000
        (recordFailure "a" (Some "s1") (httpError 500) 3000
           (recordFailure "a" (Some "s1") (httpError 500) 2000 store))
  | Throw _ => ∅
  end.

(** ** The retryable-error predicate as the specification words it

    The status code, direct or nested, is one of the seven codes; or the
    code is one of the five connection codes; or the message contains
    [timeout], [rate limit] or [too many requests], letter case ignored.
    An absent error is not retryable. *)

Definition statusListed (st : option Z) : bool :=
  match st with
  | Some n => existsb (Z.eqb n) retryableStatusCodes
  | None => false
  end.

Definition connectionCodes : list string :=
  ["ECONNABORTED"; "ETIMEDOUT"; "ENOTFOUND"; "ECONNREFUSED"; "ECONNRESET"].

Definition codeListed (c : option string) : bool :=
  match c with
  | Some s => existsb (String.eqb s) connectionCodes
  | None => false
  end.

Definition containsIgnoringCase (m : option string) (lit : string) : bool :=
  match m with
  | Some s => JS.includes (JS.toLowerCase s) (JS.toLowerCase lit)
  | None => false
  end.

Definition isRetryableError_spec (error : option ErrorInfo) : bool :=
  match error with
  | None => false
  | Some e =>
      statusListed (status e) || statusListed (response_status e)
      || codeListed (code e)
      || containsIgnoringCase (message e) "timeout"
      || containsIgnoringCase (message e) "rate limit"
      || containsIgnoringCase (message e) "too many requests"
  end.

(** ** The explicit override as the specification words it

    The provider is looked up by its name and the model by its name in
    the provider's model list, letter case ignored in both; when both are
    found the configured spellings are returned, else the requested
    string. *)

Import Router.

Definition sameIgnoringCase (a : string) (b : option string) : bool :=
  match b with
  | Some x => String.eqb (JS.toLowerCase a) (JS.toLowerCase x)
  | None => false
  end.

Definition explicitOverride_spec (requested : string) (config : Config) : string :=
  let parts := JS.split requested ","%char in
  match List.find (fun p => sameIgnoringCase (name p) (parts !! 0%nat))
                  (Providers config) with
  | Some p =>
      match models p with
      | Some ms =>
          match List.find (fun m => sameIgnoringCase m (parts !! 1%nat)) ms with
          | Some m => name p +:+ "," +:+ m
          | None => requested
          end
      | None => requested
      end
  | None => requested
  end.

(** What the code looks up: [P] is the first provider whose lower-cased
    name is the requested provider part as written, and [M] the first of
    its models whose lower-cased name is the requested model part as
    written. *)
Definition Resolves (config : Config) (provider model : string)
    (P : Provider) (M : string) : Prop :=
  FirstSuch (fun p => String.eqb (JS.toLowerCase (name p)) provider)
            (Providers config) P /\
  exists ms, models P = Some ms /\
             FirstSuch (fun m => String.eqb (JS.toLowerCase m) model) ms M.

(** ** Sample configurations and requests *)

Definition routerWithDefault (d : RouterValue) : RouterSection :=
  {| default := d; longContext := Undefined; background := Undefined;
     think := Undefined; webSearch := Undefined; longContextThreshold := None |}.

(** The configuration of router.test.ts. *)
Definition testConfig : Config :=
  {| Providers := [mkProvider "openrouter" (Some ["anthropic/claude-3.5-sonnet"])];
     Router := routerWithDefault (Single "openrouter,anthropic/claude-3.5-sonnet") |}.

Definition mixedCaseConfig : Config :=
  {| Providers := [mkProvider "OpenRouter" (Some ["GPT-4"])];
     Router := routerWithDefault (Single "OpenRouter,GPT-4") |}.


Definition requestFor (m : option string) : Request :=
  {| model := m; system := []; thinking := false; tools := None;
     sessionId := None |}.



(** * Further parts of the sources *)

(** ** Runs of the failover manager

    The four public operations of [FailoverManager] as commands; an
    exception of [getNextProvider] leaves the store as it was. *)

Inductive Op : Type :=
| OpSelect (candidates : list string) (sessionId : option string) (now : Z)
| OpFailure (provider : string) (sessionId : option string)
            (error : option ErrorInfo) (now : Z)
| OpSuccess (provider : string) (sessionId : option string)
| OpReset (sessionId : option string).

Definition step (store : Store) (op : Op) : Store :=
  match op with
  | OpSelect candidates sessionId now =>
      match getNextProvider candidates sessionId now store with
      | Ok (_, store') => store'
      | Throw _ => store
      end
  | OpFailure provider sessionId error now =>
      recordFailure provider sessionId error now store
  | OpSuccess provider sessionId => recordSuccess provider sessionId store
  | OpReset sessionId => resetFailoverConfig sessionId store
  end.

Definition run (ops : list Op) (store : Store) : Store :=
  fold_left step ops store.


(** What every record of a run satisfies. *)
Definition RecordOk (config : FailoverConfig) : Prop :=
  (2 <= List.length (providers config))%nat /\
  (currentIndex config < List.length (providers config))%nat /\
  0 <= failureCount config /\
  (failureCount config = 0 -> lastFailureTime config = 0).

Definition StoreOk (store : Store) : Prop :=
  forall key config, store !! key = Some config -> RecordOk config.

(** ** The session id of a request (router, before its [try] block)

    [req.body.metadata.user_id.split("_session_")]: when the user id is
    truthy and splits into more than one part, the second part becomes
    [req.sessionId]. *)

Definition SESSION_SEPARATOR : string := "_session_".

Definition parseSessionId (user_id : option string) : option string :=
  match user_id with
  | Some uid =>
      if JS.truthy uid then
        match JS.cut SESSION_SEPARATOR uid with
        | Some (_, after) =>
            match JS.cut SESSION_SEPARATOR after with
            | Some (second, _) => Some second
            | None => Some after
            end
        | None => None
        end
      else None
  | None => None
  end.


(** ** router, the whole function

    Before its [try] block [router] reads the session id off
    [req.body.metadata.user_id], looks up the last usage of the session,
    and, when [config.REWRITE_SYSTEM_PROMPT] is set and the second system
    segment contains [<env>], replaces the text of that segment by the
    content of the prompt file, [<env>] and the text after the last
    [<env>]. None of this is inside the [try]. *)







(** Every provider name and model name of the configuration is ASCII. *)
Definition asciiConfig (config : Config) : bool :=
  forallb (fun p => JS.isAscii (name p)
                    && match models p with
                       | Some ms => forallb JS.isAscii ms
                       | None => true
                       end)
          (Providers config).

(** [pre] is the text before the first occurrence of [sep] in [s]: [sep]
    follows it, and follows no shorter beginning of [s]. *)
Definition FirstOccurrence (sep s pre post : string) : Prop :=
  s = pre +:+ sep +:+ post /\
  forall pre' post', s = pre' +:+ sep +:+ post' ->
                     (String.length pre <= String.length pre')%nat.

(** ** calculateTokenCount

    The tokenizer and [JSON.stringify] are given from outside:
    [encode s] is [enc.encode(s).length]. *)

Module TokenCount.

Section WithTokenizer.

Variable encode : string -> nat.
Variable Json : Type.
Variable stringify : Json -> string.

(** A part of a message content array, by its [type]. *)
Inductive ContentPart : Type :=
| PartText (text : string)
| PartToolUse (input : Json)
| PartToolResultString (content : string)
| PartToolResultJson (content : Json)
| PartOther.

Inductive MessageContent : Type :=
| ContentString (s : string)
| ContentParts (parts : list ContentPart)
| ContentOther.

(** An element of a system array: not of type [text], or of type [text]
    with a string, an array of strings (falsy entries count as the empty
    string) or something else as [text]. *)
Inductive SystemItem : Type :=
| ItemNotText
| ItemText (text : string)
| ItemTexts (texts : list (option string))
| ItemTextOther.

Inductive SystemPrompt : Type :=
| SystemString (s : string)
| SystemItems (items : list SystemItem)
| SystemOther.

Record Tool : Type := mkTool {
  tool_name : string;
  description : option string;
  input_schema : option Json
}.

Definition countPart (part : ContentPart) : nat :=
  match part with
  | PartText text => encode text
  | PartToolUse input => encode (stringify input)
  | PartToolResultString content => encode content
  | PartToolResultJson content => encode (stringify content)
  | PartOther => 0
  end.

Definition countMessage (content : MessageContent) : nat :=
  match content with
  | ContentString s => encode s
  | ContentParts parts => fold_left (fun n part => n + countPart part)%nat parts 0%nat
  | ContentOther => 0
  end.

Definition countSystemItem (item : SystemItem) : nat :=
  match item with
  | ItemNotText => 0
  | ItemText text => encode text
  | ItemTexts texts =>
      fold_left (fun n t => n + encode match t with
                                        | Some textPart => textPart
                                        | None => ""
                                        end)%nat texts 0%nat
  | ItemTextOther => 0
  end.

Definition countTool (tool : Tool) : nat :=
  (match description tool with
   | Some d => if JS.truthy d then encode (tool_name tool +:+ d) else 0
   | None => 0
   end +
   match input_schema tool with
   | Some schema => encode (stringify schema)
   | None => 0
   end)%nat.

(** [messages] is [None] when it is not an array, [tools] when it is
    falsy. *)
Definition calculateTokenCount (messages : option (list MessageContent))
    (system : SystemPrompt) (tools : option (list Tool)) : nat :=
  let tokenCount := 0%nat in
  let tokenCount :=
    match messages with
    | Some ms => fold_left (fun n m => n + countMessage m)%nat ms tokenCount
    | None => tokenCount
    end in
  let tokenCount :=
    match system with
    | SystemString s => (tokenCount + encode s)%nat
    | SystemItems items =>
        fold_left (fun n item => n + countSystemItem item)%nat items tokenCount
    | SystemOther => tokenCount
    end in
  match tools with
  | Some ts => fold_left (fun n tool => n + countTool tool)%nat ts tokenCount
  | None => tokenCount
  end.

End WithTokenizer.

End TokenCount.

(** ** multi-select-combobox.tsx: the selection state *)

Module Combobox.

Record MultiSelectOption : Type := mkOption {
  value : string;
  label : string
}.

(** The [value] property: a string or an array of strings. *)
Inductive Value : Type :=
| ValueString (s : string)
| ValueArray (l : list string).

(** [selectedValues.includes(v)] *)
Definition includes (selectedValues : list string) (v : string) : bool :=
  existsb (String.eqb v) selectedValues.

(** The selected values taken from the [value] property. *)
Definition initialSelected (v : Value) : list string :=
  match v with
  | ValueArray l => l
  | ValueString s => if JS.truthy s then [s] else []
  end.

(** The options whose lower-cased label contains the lower-cased search
    term; [JS.toLowerCase] is JavaScript's [toLowerCase] on ASCII
    strings. *)
Definition filteredOptions (options : list MultiSelectOption)
    (searchTerm : string) : list MultiSelectOption :=
  List.filter
    (fun option => JS.includes (JS.toLowerCase (label option))
                               (JS.toLowerCase searchTerm))
    options.

(** The list handed to [setSelectedValues] and [onChange]. *)
Definition handleToggle (selectedValues : list string) (optionValue : string)
  : list string :=
  if includes selectedValues optionValue
  then List.filter (fun v => negb (String.eqb v optionValue)) selectedValues
  else selectedValues ++ [optionValue].

Definition handleRemove (selectedValues : list string) (optionValue : string)
  : list string :=
  List.filter (fun v => negb (String.eqb v optionValue)) selectedValues.

End Combobox.

(** * Properties of the failover manager *)

Section FailoverFacts.

Implicit Types (store : Store) (config : FailoverConfig).
Implicit Types (candidates : list string) (sessionId : option string).

Lemma available_all config now :
  (forall p, providerAvailable config now p = true) ->
  getAvailableProviders config now = providers config.
Proof.
  intros H. unfold getAvailableProviders.
  induction (providers config) as [|p l IH]; simpl; [reflexivity|].
  now rewrite H, IH.
Qed.

Lemma available_none config now :
  (forall p, providerAvailable config now p = false) ->
  getAvailableProviders config now = [].
Proof.
  intros H. unfold getAvailableProviders.
  induction (providers config) as [|p l IH]; simpl; [reflexivity|].
  now rewrite H.
Qed.

Lemma available_no_failure config now :
  failureCount config = 0 -> getAvailableProviders config now = providers config.
Proof.
  intros H. apply available_all. intros p. unfold providerAvailable. now rewrite H.
Qed.

(** The key that [resetFailoverConfig] computes from a configuration key
    is never that key. *)
Lemma length_append (s t : string) :
  String.length (s +:+ t) = (String.length s + String.length t)%nat.
Proof.
  induction s as [|c s IH]; simpl; [reflexivity|]. now rewrite IH.
Qed.

Lemma session_prefix_neq (k : string) : "session_" +:+ k <> k.
Proof.
  intros H. apply (f_equal String.length) in H.
  rewrite length_append in H. simpl in H. lia.
Qed.

Lemma map_nth_seq (l : list string) :
  map (fun j => nth j l "") (seq 0 (List.length l)) = l.
Proof.
  induction l as [|x l IH]; [reflexivity|].
  cbn [List.length seq map nth]. f_equal.
  rewrite <- seq_shift, map_map. exact IH.
Qed.

Lemma configKeyOf_truthy sessionId : JS.truthy (configKeyOf sessionId) = true.
Proof.
  destruct sessionId as [[|c s]|]; reflexivity.
Qed.

(** One rotation step on a record without failures. *)
Lemma getNextProvider_clean candidates sessionId now store i :
  (2 <= List.length candidates)%nat ->
  (i < List.length candidates)%nat ->
  store !! configKeyOf sessionId = Some (cleanRecord candidates i) ->
  getNextProvider candidates sessionId now store =
    Ok (nth i candidates "",
        <[configKeyOf sessionId :=
            cleanRecord candidates ((i + 1) mod List.length candidates)]> store).
Proof.
  intros Hlen Hi Hget.
  destruct candidates as [|c1 [|c2 cs]]; simpl in Hlen; try lia.
  unfold getNextProvider, getOrCreate. rewrite Hget.
  rewrite available_no_failure by reflexivity.
  cbn [providers cleanRecord currentIndex].
  rewrite (Nat.mod_small i) by exact Hi.
  f_equal. f_equal. apply nth_indep. exact Hi.
Qed.

(** The first call for a scope creates the record and serves from it. *)
Lemma getNextProvider_fresh candidates sessionId now store :
  (2 <= List.length candidates)%nat ->
  store !! configKeyOf sessionId = None ->
  getNextProvider candidates sessionId now store =
    Ok (nth 0 candidates "",
        <[configKeyOf sessionId :=
            cleanRecord candidates (1 mod List.length candidates)]> store).
Proof.
  intros Hlen Hget.
  destruct candidates as [|c1 [|c2 cs]]; simpl in Hlen; try lia.
  unfold getNextProvider, getOrCreate. rewrite Hget.
  rewrite available_no_failure by reflexivity.
  cbn [providers currentIndex].
  rewrite Nat.Div0.mod_0_l.
  rewrite insert_insert_eq. reflexivity.
Qed.

Lemma rotation_succ candidates i k :
  (i < List.length candidates)%nat ->
  rotation candidates i (S k) =
    nth i candidates "" :: rotation candidates ((i + 1) mod List.length candidates) k.
Proof.
  intros Hi. unfold rotation. cbn [seq map].
  rewrite Nat.add_0_r, (Nat.mod_small i) by exact Hi.
  f_equal. rewrite <- seq_shift, map_map.
  apply map_ext. intros j.
  rewrite Nat.Div0.add_mod_idemp_l.
  do 2 f_equal. lia.
Qed.

Lemma selectMany_clean candidates sessionId nows : forall store i,
  (2 <= List.length candidates)%nat ->
  (i < List.length candidates)%nat ->
  store !! configKeyOf sessionId = Some (cleanRecord candidates i) ->
  exists store',
    selectMany candidates sessionId nows store =
      Ok (rotation candidates i (List.length nows), store').
Proof.
  induction nows as [|now rest IH]; intros store i Hlen Hi Hget.
  - exists store. reflexivity.
  - cbn [selectMany].
    rewrite (getNextProvider_clean _ _ _ _ i) by assumption.
    cbn [mbind result_bind].
    destruct (IH (<[configKeyOf sessionId :=
                     cleanRecord candidates ((i + 1) mod List.length candidates)]> store)
                 ((i + 1) mod List.length candidates)%nat) as [store' Hrest].
    + exact Hlen.
    + apply Nat.mod_upper_bound. lia.
    + apply lookup_insert_eq.
    + exists store'. rewrite Hrest. cbn [List.length].
      rewrite rotation_succ by exact Hi. reflexivity.
Qed.

End FailoverFacts.

(** C1. Round robin. For a candidate list of length at least 2 and a
    scope that has no record yet, sequential [getNextProvider] calls (at
    any clock readings) return the candidates in list order: call number
    [j], counted from 0, returns the candidate at position [j mod n]. So
    the first [n] calls return the whole list, each position once, before
    any position is served again. *)
Theorem round_robin_from_fresh_scope
    (candidates : list string) (sessionId : option string)
    (nows : list Z) (store : Store) :
  (2 <= List.length candidates)%nat ->
  store !! configKeyOf sessionId = None ->
  (exists store',
     selectMany candidates sessionId nows store =
       Ok (map (fun j => nth (j mod List.length candidates) candidates "")
               (seq 0 (List.length nows)), store')) /\
  (List.length nows = List.length candidates ->
   exists store',
     selectMany candidates sessionId nows store = Ok (candidates, store')).
Proof.
  intros Hlen Hnone.
  assert (Hall : exists store',
     selectMany candidates sessionId nows store =
       Ok (map (fun j => nth (j mod List.length candidates) candidates "")
               (seq 0 (List.length nows)), store')).
  { destruct nows as [|now rest].
    - exists store. reflexivity.
    - cbn [selectMany]. rewrite getNextProvider_fresh by assumption.
      cbn [mbind result_bind].
      destruct (selectMany_clean candidates sessionId rest
                  (<[configKeyOf sessionId :=
                       cleanRecord candidates (1 mod List.length candidates)]> store)
                  (1 mod List.length candidates)%nat) as [store' Hrest].
      + exact Hlen.
      + apply Nat.mod_upper_bound. lia.
      + apply lookup_insert_eq.
      + exists store'. rewrite Hrest.
        change (map (fun j => nth (j mod List.length candidates) candidates "")
                    (seq 0 (List.length (now :: rest))))
          with (rotation candidates 0 (S (List.length rest))).
        rewrite rotation_succ by lia. reflexivity. }
  split; [exact Hall|].
  intros Hn. destruct Hall as [store' Hsel]. exists store'.
  rewrite Hsel, Hn. do 2 f_equal.
  transitivity (map (fun j => nth j candidates "") (seq 0 (List.length candidates)));
    [|apply map_nth_seq].
  apply map_ext_in. intros j Hj. apply in_seq in Hj.
  rewrite Nat.mod_small by lia. reflexivity.
Qed.

Lemma round_robin_from_fresh_scope_witness :
  (exists store',
     selectMany ["a"; "b"; "c"] (Some "s1") [10; 20; 30; 40] ∅ =
       Ok (["a"; "b"; "c"; "a"], store')) /\
  (exists store',
     selectMany ["a"; "b"; "c"] (Some "s1") [10; 20; 30] ∅ =
       Ok (["a"; "b"; "c"], store')).
Proof.
  split.
  - destruct (round_robin_from_fresh_scope ["a"; "b"; "c"] (Some "s1")
                [10; 20; 30; 40] ∅) as [[store' H] _].
    + simpl. lia.
    + reflexivity.
    + exists store'. exact H.
  - destruct (round_robin_from_fresh_scope ["a"; "b"; "c"] (Some "s1")
                [10; 20; 30] ∅) as [_ H].
    + simpl. lia.
    + reflexivity.
    + apply H. reflexivity.
Defined.

Lemma providerAvailable_true (config : FailoverConfig) (now : Z) (p : string) :
  providerAvailable config now p = true <->
  failureCount config = 0 \/
  now - lastFailureTime config > 30000 \/
  failureCount config < 3.
Proof.
  unfold providerAvailable, FAILURE_COOLDOWN_MS, MAX_FAILURES.
  destruct (Z.eqb_spec (failureCount config) 0) as [E|E];
    destruct (Z.gtb_spec (now - lastFailureTime config) 30000) as [G|G];
    cbn [orb]; try (split; [intros _|reflexivity]; lia).
  rewrite Z.ltb_lt. lia.
Qed.

Lemma providerAvailable_false (config : FailoverConfig) (now : Z) (p : string) :
  providerAvailable config now p = false <->
  failureCount config >= 3 /\ now - lastFailureTime config <= 30000.
Proof.
  rewrite <- not_true_iff_false, providerAvailable_true. lia.
Qed.

(** C2. Availability. At a lookup on a record, a candidate of the record
    is in the available subset exactly when the failure count is 0, or
    more than 30000 ms have passed since the last failure, or the failure
    count is below 3; a candidate of the record is left out exactly when
    the failure count is at least 3 and at most 30000 ms have passed. *)
Theorem available_iff_no_streak_or_cooled_or_below_max
    (config : FailoverConfig) (now : Z) (p : string) :
  (In p (getAvailableProviders config now) <->
   In p (providers config) /\
   (failureCount config = 0 \/
    now - lastFailureTime config > 30000 \/
    failureCount config < 3)) /\
  (In p (providers config) /\ ~ In p (getAvailableProviders config now) <->
   In p (providers config) /\
   failureCount config >= 3 /\ now - lastFailureTime config <= 30000).
Proof.
  unfold getAvailableProviders. rewrite filter_In.
  rewrite <- (providerAvailable_false config now p).
  rewrite <- (providerAvailable_true config now p).
  destruct (providerAvailable config now p); intuition congruence.
Qed.

Section Selection.

Variables (first second : string) (rest : list string).
Variables (sessionId : option string) (now : Z) (store : Store).
Variable config : FailoverConfig.
Hypothesis Hrecord : store !! configKeyOf sessionId = Some config.

(** No candidate available: the first candidate passed is returned, and
    the key removed from the store is the configuration key prefixed once
    more, so the record of the scope stays. *)
Lemma getNextProvider_exhausted :
  getAvailableProviders config now = [] ->
  getNextProvider (first :: second :: rest) sessionId now store =
    Ok (first, delete ("session_" +:+ configKeyOf sessionId) store).
Proof.
  intros Hnone. unfold getNextProvider, getOrCreate.
  rewrite Hrecord, Hnone. unfold resetFailoverConfig.
  unfold configKeyOf at 1. rewrite configKeyOf_truthy. reflexivity.
Qed.

Lemma exhausted_record_stays :
  delete ("session_" +:+ configKeyOf sessionId) store !! configKeyOf sessionId
  = Some config.
Proof.
  rewrite lookup_delete_ne by apply session_prefix_neq. exact Hrecord.
Qed.

(** Some candidate available: the cursor picks in the available subset
    and moves on by one. *)
Lemma getNextProvider_rotates (a0 : string) (avail : list string) :
  getAvailableProviders config now = a0 :: avail ->
  getNextProvider (first :: second :: rest) sessionId now store =
    Ok (nth (currentIndex config mod S (List.length avail)) (a0 :: avail) a0,
        <[configKeyOf sessionId :=
            setCurrentIndex config
              ((currentIndex config + 1) mod S (List.length avail))]> store).
Proof.
  intros Hsome. unfold getNextProvider, getOrCreate.
  rewrite Hrecord, Hsome. reflexivity.
Qed.

End Selection.


Lemma recordFailure_retryable (provider : string) (sessionId : option string)
    (error : option ErrorInfo) (now : Z) (store : Store) (config : FailoverConfig) :
  store !! configKeyOf sessionId = Some config ->
  isRetryableError error = true ->
  recordFailure provider sessionId error now store =
    <[configKeyOf sessionId := setFailure config (failureCount config + 1) now]> store.
Proof.
  intros Hget Hretry. unfold recordFailure. now rewrite Hget, Hretry.
Qed.

(** C3. The run [afterThreeFailures] leaves session [s1] with a streak of
    3; a selection from [a, b] at time 5000, inside the cooldown, finds
    no candidate available and returns [a], the first candidate passed.
    The record of the session is still in the store afterwards, with its
    streak: the store is the one before the call. *)
Theorem exhausted_scope_keeps_its_record :
  let config := {| providers := ["a"; "b"]; currentIndex := 1;
                   lastFailureTime := 4000; failureCount := 3 |} in
  afterThreeFailures !! "session_s1" = Some config /\
  getAvailableProviders config 5000 = [] /\
  getNextProvider ["a"; "b"] (Some "s1") 5000 afterThreeFailures =
    Ok ("a", delete "session_session_s1" afterThreeFailures) /\
  delete "session_session_s1" afterThreeFailures !! "session_s1" = Some config.
Proof.
  assert (H : afterThreeFailures !! "session_s1" =
              Some {| providers := ["a"; "b"]; currentIndex := 1;
                      lastFailureTime := 4000; failureCount := 3 |})
    by (vm_compute; reflexivity).
  cbv zeta. split; [exact H|]. split; [reflexivity|]. split.
  - exact (getNextProvider_exhausted "a" "b" [] (Some "s1") 5000 _ _ H eq_refl).
  - exact (exhausted_record_stays (Some "s1") _ _ H).
Qed.

(** The key removed in the exhausted case belongs to another scope: when
    the global scope is exhausted, the record of the session named
    [global] is the one that goes. *)
Lemma exhausted_global_scope_drops_session_global :
  let exhausted := {| providers := ["a"; "b"]; currentIndex := 0;
                      lastFailureTime := 4000; failureCount := 3 |} in
  let store : Store :=
    <["global" := exhausted]> (<["session_global" := cleanRecord ["x"; "y"] 1]> ∅) in
  exists store',
    getNextProvider ["a"; "b"] None 5000 store = Ok ("a", store') /\
    store' !! "global" = Some exhausted /\
    store' !! "session_global" = None.
Proof.
  cbv zeta. eexists. split; [|split].
  - eapply (getNextProvider_exhausted "a" "b" [] None 5000); reflexivity.
  - reflexivity.
  - reflexivity.
Qed.

(** C4, as the code has it. After three consecutive [recordFailure] calls
    with retryable errors on the record of a scope, and while less than
    the 30-second cooldown has passed since the last of them, the
    available subset computed for that record is empty: every candidate
    of the record is left out. *)
Theorem three_retryable_failures_exclude_every_candidate
    (sessionId : option string) (store : Store) (config : FailoverConfig)
    (p1 p2 p3 : string) (e1 e2 e3 : option ErrorInfo) (t1 t2 t3 now : Z) :
  store !! configKeyOf sessionId = Some config ->
  0 <= failureCount config ->
  isRetryableError e1 = true ->
  isRetryableError e2 = true ->
  isRetryableError e3 = true ->
  now - t3 < FAILURE_COOLDOWN_MS ->
  exists config3,
    recordFailure p3 sessionId e3 t3
      (recordFailure p2 sessionId e2 t2
         (recordFailure p1 sessionId e1 t1 store)) !! configKeyOf sessionId
    = Some config3 /\
    providers config3 = providers config /\
    failureCount config3 = failureCount config + 3 /\
    lastFailureTime config3 = t3 /\
    getAvailableProviders config3 now = [].
Proof.
  intros Hget Hcount H1 H2 H3 Hcool.
  rewrite (recordFailure_retryable p1 _ e1 t1 _ _ Hget H1).
  rewrite (recordFailure_retryable p2 _ e2 t2 _ _ (lookup_insert_eq _ _ _) H2).
  rewrite (recordFailure_retryable p3 _ e3 t3 _ _ (lookup_insert_eq _ _ _) H3).
  rewrite lookup_insert_eq. eexists. split; [reflexivity|].
  cbn [setFailure providers failureCount lastFailureTime].
  repeat split; [lia|].
  apply available_none. intros p.
  apply providerAvailable_false.
  cbn [setFailure failureCount lastFailureTime].
  unfold FAILURE_COOLDOWN_MS in Hcool. lia.
Qed.

Lemma three_retryable_failures_exclude_every_candidate_witness :
  exists config3,
    afterThreeFailures !! "session_s1" = Some config3 /\
    providers config3 = ["a"; "b"] /\
    failureCount config3 = 3 /\
    lastFailureTime config3 = 4000 /\
    getAvailableProviders config3 5000 = [].
Proof.
  exact (three_retryable_failures_exclude_every_candidate
           (Some "s1") (<["session_s1" := cleanRecord ["a"; "b"] 1]> ∅)
           (cleanRecord ["a"; "b"] 1) "a" "a" "a"
           (httpError 500) (httpError 500) (httpError 500) 2000 3000 4000 5000
           eq_refl (Z.le_refl 0) eq_refl eq_refl eq_refl eq_refl).
Defined.

(** C4 as stated fails: in the run [afterThreeFailures], 1000 ms after
    the third failure, candidate [a] of the record is not available. *)
Lemma three_failures_leave_no_candidate_available :
  exists config,
    afterThreeFailures !! "session_s1" = Some config /\
    5000 - lastFailureTime config < FAILURE_COOLDOWN_MS /\
    In "a" (providers config) /\
    ~ In "a" (getAvailableProviders config 5000).
Proof.
  exists {| providers := ["a"; "b"]; currentIndex := 1;
            lastFailureTime := 4000; failureCount := 3 |}.
  split; [vm_compute; reflexivity|].
  split; [reflexivity|].
  split; [left; reflexivity|].
  intros H. exact H.
Qed.

(** C5. A one-element candidate list is answered with its element, and
    the store is handed back as it was, whether or not the scope has a
    record: the answer does not depend on what the store holds, and no
    record is created, changed or removed, however often the call is
    repeated. *)
Theorem single_candidate_leaves_store_alone
    (only : string) (sessionId : option string) (now : Z) (store : Store) :
  getNextProvider [only] sessionId now store = Ok (only, store) /\
  (forall nows : list Z,
     selectMany [only] sessionId nows store =
       Ok (repeat only (List.length nows), store)).
Proof.
  split; [reflexivity|].
  induction nows as [|t nows IH]; [reflexivity|].
  cbn [selectMany getNextProvider mbind result_bind].
  rewrite IH. reflexivity.
Qed.

(** C7. [recordFailure] hands the store back as it was when the scope has
    no record or the error is classified as not retryable. *)
Theorem recordFailure_ignores_unknown_scope_and_fatal_error
    (provider : string) (sessionId : option string)
    (error : option ErrorInfo) (now : Z) (store : Store) :
  store !! configKeyOf sessionId = None \/ isRetryableError error = false ->
  recordFailure provider sessionId error now store = store.
Proof.
  intros [Hnone|Hfatal]; unfold recordFailure.
  - now rewrite Hnone.
  - rewrite Hfatal. now destruct (store !! configKeyOf sessionId).
Qed.

Lemma recordFailure_ignores_unknown_scope_and_fatal_error_witness :
  (isRetryableError (httpError 404) = false /\
   recordFailure "a" (Some "s1") (httpError 404) 5000 afterThreeFailures
   = afterThreeFailures) /\
  (isRetryableError None = false /\
   recordFailure "a" (Some "s1") None 5000 afterThreeFailures
   = afterThreeFailures) /\
  (afterThreeFailures !! configKeyOf (Some "s2") = None /\
   recordFailure "a" (Some "s2") (httpError 500) 5000 afterThreeFailures
   = afterThreeFailures).
Proof.
  split; [|split].
  - split; [reflexivity|].
    apply recordFailure_ignores_unknown_scope_and_fatal_error.
    right. reflexivity.
  - split; [reflexivity|].
    apply recordFailure_ignores_unknown_scope_and_fatal_error.
    right. reflexivity.
  - split; [vm_compute; reflexivity|].
    apply recordFailure_ignores_unknown_scope_and_fatal_error.
    left. vm_compute. reflexivity.
Defined.





(** * Properties of the retryable-error predicate *)

Section Strings.

Lemma is_upper_lower_char (c : ascii) : JS.is_upper (JS.lower_char c) = false.
Proof.
  unfold JS.lower_char. destruct (JS.is_upper c) eqn:E; [|exact E].
  unfold JS.is_upper in *.
  apply andb_true_iff in E. destruct E as [E1 E2].
  apply Nat.leb_le in E1. apply Nat.leb_le in E2.
  rewrite nat_ascii_embedding by lia.
  apply andb_false_iff. right. apply Nat.leb_gt. lia.
Qed.

Lemma hasUpper_toLowerCase (s : string) : hasUpper (JS.toLowerCase s) = false.
Proof.
  unfold hasUpper. induction s as [|c s IH]; [reflexivity|].
  cbn [JS.toLowerCase list_ascii_of_string existsb].
  now rewrite is_upper_lower_char, IH.
Qed.

Lemma toLowerCase_fixes_lowercase (s : string) :
  hasUpper s = false -> JS.toLowerCase s = s.
Proof.
  unfold hasUpper. induction s as [|c s IH]; [reflexivity|].
  cbn [JS.toLowerCase list_ascii_of_string existsb].
  intros H. apply orb_false_iff in H. destruct H as [Hc Hs].
  unfold JS.lower_char. rewrite Hc, (IH Hs). reflexivity.
Qed.

Lemma startsWith_toLowerCase (s p : string) :
  JS.startsWith s p = true ->
  JS.startsWith (JS.toLowerCase s) (JS.toLowerCase p) = true.
Proof.
  revert s. induction p as [|a p IH]; intros s H; [reflexivity|].
  destruct s as [|b s]; [discriminate H|].
  cbn [JS.startsWith JS.toLowerCase] in *.
  apply andb_true_iff in H. destruct H as [Hab Hrest].
  apply Ascii.eqb_eq in Hab. subst b.
  rewrite Ascii.eqb_refl. now apply IH.
Qed.

Lemma includes_toLowerCase (s needle : string) :
  JS.includes s needle = true ->
  JS.includes (JS.toLowerCase s) (JS.toLowerCase needle) = true.
Proof.
  induction s as [|c s IH]; intros H.
  - cbn [JS.includes JS.toLowerCase] in *. rewrite orb_false_r in *.
    now apply (startsWith_toLowerCase "").
  - cbn [JS.includes] in H. apply orb_true_iff in H.
    cbn [JS.toLowerCase JS.includes]. apply orb_true_iff.
    destruct H as [H|H].
    + left. now apply (startsWith_toLowerCase (String c s)).
    + right. now apply IH.
Qed.

End Strings.

Lemma statusRetryable_listed (st : option Z) : statusRetryable st = statusListed st.
Proof.
  destruct st as [n|]; [|reflexivity]. cbn [statusRetryable statusListed].
  destruct (Z.eqb_spec n 0) as [->|_]; reflexivity.
Qed.

(** What the code accepts, for an error that is present: the message
    test for [timeout] looks at the message as it is written. *)
Lemma isRetryableError_exact (e : ErrorInfo) :
  isRetryableError (Some e) =
    statusListed (status e) || statusListed (response_status e)
    || codeListed (code e)
    || messageIncludes (message e) "timeout"
    || containsIgnoringCase (message e) "rate limit"
    || containsIgnoringCase (message e) "too many requests".
Proof.
  assert (Hif : forall b c : bool, (if b then true else c) = b || c)
    by (intros [] c; reflexivity).
  unfold isRetryableError. rewrite !Hif, !statusRetryable_listed.
  unfold codeListed, codeIs, connectionCodes, containsIgnoringCase,
    messageLowerIncludes.
  change (JS.toLowerCase "rate limit") with "rate limit".
  change (JS.toLowerCase "too many requests") with "too many requests".
  destruct (code e) as [c|], (message e) as [m|]; cbn [existsb]; btauto.
Qed.

(** Every error the code classifies as retryable is retryable in the
    specification's sense. *)
Lemma isRetryableError_within_spec (error : option ErrorInfo) :
  isRetryableError error = true -> isRetryableError_spec error = true.
Proof.
  destruct error as [e|]; [|discriminate].
  rewrite isRetryableError_exact. unfold isRetryableError_spec.
  destruct (statusListed (status e)), (statusListed (response_status e)),
    (codeListed (code e)); cbn [orb]; try reflexivity.
  destruct (messageIncludes (message e) "timeout") eqn:E; cbn [orb];
    [|destruct (containsIgnoringCase (message e) "timeout"); cbn [orb];
      [reflexivity|exact (fun H => H)]].
  intros _. unfold messageIncludes in E. unfold containsIgnoringCase at 1.
  destruct (message e) as [m|]; [|discriminate].
  now rewrite (includes_toLowerCase m "timeout" E).
Qed.

(** On a message without upper-case letters the two agree. *)
Lemma isRetryableError_spec_on_lowercase (e : ErrorInfo) :
  (forall m, message e = Some m -> hasUpper m = false) ->
  isRetryableError (Some e) = isRetryableError_spec (Some e).
Proof.
  intros Hm. rewrite isRetryableError_exact. unfold isRetryableError_spec.
  do 3 f_equal. unfold messageIncludes, containsIgnoringCase.
  destruct (message e) as [m|]; [|reflexivity].
  now rewrite (toLowerCase_fixes_lowercase m (Hm m eq_refl)).
Qed.

(** C6. An error whose only sign of a timeout is a message that spells
    the word with an upper-case letter is classified as not retryable by
    the code, although its message contains [timeout] when letter case is
    ignored. *)
Theorem capitalised_timeout_is_not_retried :
  isRetryableError (messageError "Connect Timeout Error") = false /\
  isRetryableError_spec (messageError "Connect Timeout Error") = true /\
  isRetryableError (messageError "connect timeout error") = true /\
  isRetryableError (messageError "Rate Limit exceeded") = true.
Proof.
  repeat split; reflexivity.
Qed.

(** * Properties of the model selection *)

Section Find.

Context {A : Type} (f : A -> bool).

Lemma find_FirstSuch (l : list A) (x : A) :
  List.find f l = Some x <-> FirstSuch f l x.
Proof.
  split.
  - induction l as [|y l IH]; [discriminate|].
    cbn [List.find]. destruct (f y) eqn:Ey.
    + intros [= ->]. exists [], l. now repeat split.
    + intros H. destruct (IH H) as (before & after & -> & Hx & Hbefore).
      exists (y :: before), after. repeat split; [exact Hx|].
      now constructor.
  - intros (before & after & -> & Hx & Hbefore).
    induction Hbefore as [|y before Hy _ IH]; cbn [app List.find].
    + now rewrite Hx.
    + now rewrite Hy.
Qed.

End Find.

Lemma split_aux_cons (sep : ascii) (s cur : string) :
  exists part parts, JS.split_aux sep cur s = part :: parts.
Proof.
  revert cur. induction s as [|c s IH]; intros cur; cbn [JS.split_aux].
  - eauto.
  - destruct (Ascii.eqb c sep); eauto.
Qed.

Lemma split_aux_includes (s cur : string) :
  JS.includes s "," = true ->
  exists provider model rest,
    JS.split_aux ","%char cur s = provider :: model :: rest.
Proof.
  revert cur. induction s as [|c s IH]; intros cur H; [discriminate H|].
  cbn [JS.includes JS.startsWith] in H. rewrite andb_true_r in H.
  cbn [JS.split_aux]. rewrite Ascii.eqb_sym.
  destruct (Ascii.eqb ","%char c).
  - destruct (split_aux_cons ","%char s EmptyString) as (part & parts & ->). eauto.
  - apply IH. exact H.
Qed.

(** A string that contains a comma splits into at least two parts. *)
Lemma split_includes (s : string) :
  JS.includes s "," = true ->
  exists provider model rest, JS.split s ","%char = provider :: model :: rest.
Proof.
  apply split_aux_includes.
Qed.

Lemma eqb_toLowerCase_no_upper (a b : string) :
  String.eqb (JS.toLowerCase a) b = true -> hasUpper b = false.
Proof.
  intros H. apply String.eqb_eq in H. subst b. apply hasUpper_toLowerCase.
Qed.

Lemma explicitOverride_unfold (requested provider model : string)
    (rest : list string) (config : Config) :
  JS.split requested ","%char = provider :: model :: rest ->
  explicitOverride requested config =
    match List.find (fun p => String.eqb (JS.toLowerCase (name p)) provider)
                    (Providers config) with
    | Some P =>
        match models P with
        | Some ms =>
            match List.find (fun m => String.eqb (JS.toLowerCase m) model) ms with
            | Some M => if JS.truthy M then name P +:+ "," +:+ M else requested
            | None => requested
            end
        | None => requested
        end
    | None => requested
    end.
Proof.
  intros Hsplit. unfold explicitOverride. rewrite Hsplit.
  cbn [lookup list_lookup strictEq].
  destruct (List.find _ (Providers config)) as [P|]; [|reflexivity].
  destruct (models P) as [ms|]; [|reflexivity].
  destruct (List.find _ ms) as [M|]; reflexivity.
Qed.

Lemma truthy_nonempty (s : string) : JS.truthy s = true <-> s <> "".
Proof.
  destruct s; cbn; split; congruence.
Qed.

(** C8, as the code has it. Take a configuration whose provider and
    model names are ASCII, the strings on which [JS.toLowerCase] is
    JavaScript's. For a request whose model string contains a
    comma, the selection returns at once, without an exception and
    without touching the request or the failover store. The provider
    part and the model part of the request (the text before the first
    comma and between the first and the second) are compared as written
    with the lower-cased configured provider names and the lower-cased
    model names of the provider found. When both are found and the model
    name is not empty, the result is the pair in the configured
    spellings; otherwise it is the requested string unchanged. So a part
    of the request that contains an upper-case letter is never found. *)
Theorem explicit_override_compares_request_as_written
    (req : Request) (tokenCount : Z) (config : Config)
    (lastUsage : option Z) (now : Z) (store : Store) (requested : string) :
  asciiConfig config = true ->
  model req = Some requested ->
  JS.includes requested "," = true ->
  exists provider model rest,
    JS.split requested ","%char = provider :: model :: rest /\
    getUseModel req tokenCount config lastUsage now store =
      Ok (explicitOverride requested config, req, store) /\
    (forall P M, Resolves config provider model P M -> M <> "" ->
                 explicitOverride requested config = name P +:+ "," +:+ M) /\
    ((forall P M, Resolves config provider model P M -> M = "") ->
     explicitOverride requested config = requested) /\
    (hasUpper provider = true \/ hasUpper model = true ->
     explicitOverride requested config = requested).
Proof.
  intros _ Hmodel Hcomma.
  destruct (split_includes requested Hcomma) as (provider & model & rest & Hsplit).
  exists provider, model, rest. split; [exact Hsplit|].
  split; [unfold getUseModel; now rewrite Hmodel, Hcomma|].
  rewrite (explicitOverride_unfold _ _ _ _ config Hsplit).
  assert (Hnone : (forall P M, Resolves config provider model P M -> M = "") ->
    match List.find (fun p => String.eqb (JS.toLowerCase (name p)) provider)
                    (Providers config) with
    | Some P =>
        match models P with
        | Some ms =>
            match List.find (fun m => String.eqb (JS.toLowerCase m) model) ms with
            | Some M => if JS.truthy M then name P +:+ "," +:+ M else requested
            | None => requested
            end
        | None => requested
        end
    | None => requested
    end = requested).
  { intros Hno.
    destruct (List.find _ (Providers config)) as [P|] eqn:HP; [|reflexivity].
    destruct (models P) as [ms|] eqn:Hms; [|reflexivity].
    destruct (List.find _ ms) as [M|] eqn:HM; [|reflexivity].
    rewrite (Hno P M); [reflexivity|].
    split; [now apply find_FirstSuch|].
    exists ms. split; [exact Hms|now apply find_FirstSuch]. }
  split; [|split].
  - intros P M [HP (ms & Hms & HM)] Hne.
    apply find_FirstSuch in HP, HM. rewrite HP, Hms, HM.
    apply truthy_nonempty in Hne. now rewrite Hne.
  - exact Hnone.
  - intros Hupper. apply Hnone.
    intros P M [(_ & _ & _ & HP & _) (ms & _ & (_ & _ & _ & HM & _))].
    apply eqb_toLowerCase_no_upper in HP, HM.
    destruct Hupper; congruence.
Qed.

Lemma explicit_override_compares_request_as_written_witness :
  getUseModel (requestFor (Some "openrouter,anthropic/claude-3.5-sonnet"))
    0 testConfig None 0 ∅ =
    Ok ("openrouter,anthropic/claude-3.5-sonnet",
        requestFor (Some "openrouter,anthropic/claude-3.5-sonnet"), ∅) /\
  getUseModel (requestFor (Some "openrouter,gpt-4")) 0 mixedCaseConfig None 0 ∅ =
    Ok ("OpenRouter,GPT-4", requestFor (Some "openrouter,gpt-4"), ∅) /\
  getUseModel (requestFor (Some "OPENROUTER,gpt-4")) 0 mixedCaseConfig None 0 ∅ =
    Ok ("OPENROUTER,gpt-4", requestFor (Some "OPENROUTER,gpt-4"), ∅).
Proof.
  split; [|split].
  - destruct (explicit_override_compares_request_as_written
                (requestFor (Some "openrouter,anthropic/claude-3.5-sonnet"))
                0 testConfig None 0 ∅ _ eq_refl eq_refl eq_refl)
      as (provider & model & rest & Hsplit & Hcall & Hfound & _).
    injection Hsplit as <- <- <-. rewrite Hcall.
    rewrite (Hfound (mkProvider "openrouter" (Some ["anthropic/claude-3.5-sonnet"]))
                    "anthropic/claude-3.5-sonnet"); [reflexivity| |discriminate].
    split.
    + exists [], []. repeat split. constructor.
    + eexists. split; [reflexivity|]. exists [], []. repeat split. constructor.
  - destruct (explicit_override_compares_request_as_written
                (requestFor (Some "openrouter,gpt-4"))
                0 mixedCaseConfig None 0 ∅ _ eq_refl eq_refl eq_refl)
      as (provider & model & rest & Hsplit & Hcall & Hfound & _).
    injection Hsplit as <- <- <-. rewrite Hcall.
    rewrite (Hfound (mkProvider "OpenRouter" (Some ["GPT-4"])) "GPT-4");
      [reflexivity| |discriminate].
    split.
    + exists [], []. repeat split. constructor.
    + eexists. split; [reflexivity|]. exists [], []. repeat split. constructor.
  - destruct (explicit_override_compares_request_as_written
                (requestFor (Some "OPENROUTER,gpt-4"))
                0 mixedCaseConfig None 0 ∅ _ eq_refl eq_refl eq_refl)
      as (provider & model & rest & Hsplit & Hcall & _ & _ & Hupper).
    injection Hsplit as <- <- <-. rewrite Hcall.
    rewrite Hupper; [reflexivity|]. left. reflexivity.
Defined.

(** C8 as stated fails: the configuration names provider [OpenRouter]
    with model [GPT-4]; the request [OPENROUTER,gpt-4] names both when
    letter case is ignored, and the code returns the request as written
    instead of the configured spellings. *)
Lemma uppercase_request_is_returned_as_written :
  getUseModel (requestFor (Some "OPENROUTER,gpt-4")) 0 mixedCaseConfig None 0 ∅ =
    Ok ("OPENROUTER,gpt-4", requestFor (Some "OPENROUTER,gpt-4"), ∅) /\
  explicitOverride_spec "OPENROUTER,gpt-4" mixedCaseConfig = "OpenRouter,GPT-4" /\
  "OPENROUTER,gpt-4" <> "OpenRouter,GPT-4".
Proof.
  repeat split; try reflexivity. discriminate.
Qed.

(** [getModelFromConfig] throws on a missing value, an empty string and
    an empty list, and on nothing else. *)
Lemma getModelFromConfig_throws (v : RouterValue) (sessionId : option string)
    (now : Z) (store : Store) (msg : string) :
  getModelFromConfig v sessionId now store = Throw msg ->
  v = Undefined \/ v = Single "" \/ v = Candidates [].
Proof.
  destruct v as [|s|l]; cbn [getModelFromConfig].
  - now left.
  - destruct s; [now right; left|discriminate].
  - destruct l as [|c1 [|c2 cs]]; [now right; right|discriminate|].
    unfold getNextProvider.
    destruct (getOrCreate _ _ _) as [config store1].
    destruct (getAvailableProviders config now); discriminate.
Qed.

Lemma getModelFromConfig_returns (v : RouterValue) (sessionId : option string)
    (now : Z) (store : Store) :
  v <> Undefined -> v <> Single "" -> v <> Candidates [] ->
  exists m store', getModelFromConfig v sessionId now store = Ok (m, store').
Proof.
  intros H1 H2 H3.
  destruct (getModelFromConfig v sessionId now store) as [[m store']|msg] eqn:E.
  - eauto.
  - apply getModelFromConfig_throws in E. tauto.
Qed.


Lemma selectModel_assigns_string (req : Request) (tokenCount : result Z)
    (customRouter : option (result (option string))) (config : Config)
    (lastUsage : option Z) (now : Z) (store : Store) (routed : Routed) :
  selectModel req tokenCount customRouter config lastUsage now store = Ok routed ->
  exists m, assigned routed = Single m.
Proof.
  unfold selectModel. destruct tokenCount as [count|msg]; [|discriminate].
  cbn [mbind result_bind].
  destruct customRouter as [[[[|c m]|]|msg]|];
    try (destruct (getUseModel req count config lastUsage now store)
           as [[[m' req'] store']|msg']; cbn [mbind result_bind];
         [intros [= <-]; now exists m'|discriminate]).
  intros [= <-]. now eexists.
Qed.

(** With a default that is a non-empty string or a non-empty list, the
    value that [router] assigns is always a string. *)
Lemma router_assigns_string (req : Request) (tokenCount : result Z)
    (customRouter : option (result (option string))) (config : Config)
    (lastUsage : option Z) (now : Z) (store : Store) :
  default (Router config) <> Undefined ->
  default (Router config) <> Single "" ->
  default (Router config) <> Candidates [] ->
  exists m req' store',
    router req tokenCount customRouter config lastUsage now store
    = Ok (mkRouted (Single m) req' store').
Proof.
  intros H1 H2 H3. unfold router.
  destruct (selectModel req tokenCount customRouter config lastUsage now store)
    as [routed|error] eqn:Hsel; cbn [try_catch].
  - destruct (selectModel_assigns_string _ _ _ _ _ _ _ _ Hsel) as [m Hm].
    destruct routed as [v req' store']. cbn [assigned] in Hm. subst v. eauto.
  - destruct (getModelFromConfig_returns _ (sessionId req) now store H1 H2 H3)
      as (m & store' & ->).
    cbn [mbind result_bind try_catch]. eauto.
Qed.





(** * Further properties of the failover manager *)

(** [getNextProvider] throws on the empty candidate list and on no other
    input. *)
Theorem getNextProvider_throws_only_on_empty
    (candidates : list string) (sessionId : option string)
    (now : Z) (store : Store) :
  (candidates = [] ->
   getNextProvider candidates sessionId now store = Throw "No providers available") /\
  (candidates <> [] ->
   exists p store', getNextProvider candidates sessionId now store = Ok (p, store')).
Proof.
  split.
  - intros ->. reflexivity.
  - intros Hne. destruct candidates as [|c1 [|c2 cs]]; [congruence|cbn; eauto|].
    unfold getNextProvider.
    destruct (getOrCreate _ _ store) as [config store1].
    destruct (getAvailableProviders config now); eauto.
Qed.

Lemma getNextProvider_throws_only_on_empty_witness :
  getNextProvider [] (Some "s1") 5000 afterThreeFailures
  = Throw "No providers available" /\
  exists p store',
    getNextProvider ["x"; "y"] (Some "s1") 5000 afterThreeFailures = Ok (p, store').
Proof.
  split.
  - now apply (getNextProvider_throws_only_on_empty [] (Some "s1") 5000).
  - apply (getNextProvider_throws_only_on_empty ["x"; "y"] (Some "s1") 5000).
    discriminate.
Defined.

(** The available subset is all of the record's candidates or none of
    them: the test does not depend on the candidate. *)
Theorem available_subset_is_all_or_nothing (config : FailoverConfig) (now : Z) :
  getAvailableProviders config now = providers config \/
  getAvailableProviders config now = [].
Proof.
  destruct (providerAvailable config now "") eqn:E.
  - left. apply available_all. intros p. exact E.
  - right. apply available_none. intros p. exact E.
Qed.

(** Session keys. Different non-empty session ids have different keys,
    none of which is the global key; the empty session id and a missing
    one share the global key. *)
Theorem configKeyOf_separates_sessions (a b : string) :
  (a <> "" -> b <> "" ->
   configKeyOf (Some a) = configKeyOf (Some b) -> a = b) /\
  (a <> "" -> configKeyOf (Some a) <> configKeyOf None) /\
  configKeyOf (Some "") = configKeyOf None.
Proof.
  split; [|split].
  - intros Ha Hb. destruct a; [congruence|]. destruct b; [congruence|].
    cbn. now intros [= -> ->].
  - intros Ha. destruct a; [congruence|]. cbn. discriminate.
  - reflexivity.
Qed.

Lemma configKeyOf_separates_sessions_witness :
  configKeyOf (Some "s1") <> configKeyOf None.
Proof.
  apply (configKeyOf_separates_sessions "s1" "s1"). discriminate.
Defined.

(** A call of [getNextProvider] for a scope reads and writes the record
    of that scope only, except that it may remove the key made of
    [session_] and the scope's key. *)
Theorem getNextProvider_leaves_other_scopes
    (candidates : list string) (sessionId : option string)
    (now : Z) (store store' : Store) (p key : string) :
  getNextProvider candidates sessionId now store = Ok (p, store') ->
  key <> configKeyOf sessionId ->
  key <> "session_" +:+ configKeyOf sessionId ->
  store' !! key = store !! key.
Proof.
  intros Hcall Hk Hk'.
  destruct candidates as [|c1 [|c2 cs]]; [discriminate|now injection Hcall as _ <-|].
  unfold getNextProvider, getOrCreate in Hcall.
  assert (Hreset : forall s : Store,
             resetFailoverConfig (Some (configKeyOf sessionId)) s !! key = s !! key).
  { intros s. unfold resetFailoverConfig, configKeyOf at 1.
    rewrite configKeyOf_truthy. now rewrite lookup_delete_ne. }
  destruct (store !! configKeyOf sessionId) as [config|];
    cbv zeta in Hcall;
    match type of Hcall with
    | context [getAvailableProviders ?c now] =>
        destruct (getAvailableProviders c now)
    end;
    injection Hcall as _ <-;
    rewrite ?Hreset, ?lookup_insert_ne by congruence; reflexivity.
Qed.

Lemma getNextProvider_leaves_other_scopes_witness :
  exists p store',
    getNextProvider ["x"; "y"] None 5000 afterThreeFailures = Ok (p, store') /\
    store' !! "session_s1" = afterThreeFailures !! "session_s1".
Proof.
  destruct (getNextProvider ["x"; "y"] None 5000 afterThreeFailures)
    as [[p store']|msg] eqn:Hcall; [|discriminate Hcall].
  exists p, store'. split; [reflexivity|].
  apply (getNextProvider_leaves_other_scopes _ _ _ _ _ _ _ Hcall); discriminate.
Defined.

Section StoreInvariant.

Lemma StoreOk_insert (store : Store) (key : string) (config : FailoverConfig) :
  StoreOk store -> RecordOk config -> StoreOk (<[key := config]> store).
Proof.
  intros Hstore Hconfig k c. rewrite lookup_insert.
  case_decide; [now intros [= <-]|apply Hstore].
Qed.

Lemma StoreOk_delete (store : Store) (key : string) :
  StoreOk store -> StoreOk (delete key store).
Proof.
  intros Hstore k c. rewrite lookup_delete.
  case_decide; [discriminate|apply Hstore].
Qed.

Lemma available_length (config : FailoverConfig) (now : Z) :
  (List.length (getAvailableProviders config now) <= List.length (providers config))%nat.
Proof.
  apply filter_length_le.
Qed.

Lemma RecordOk_rotate (config : FailoverConfig) (now : Z) :
  RecordOk config ->
  getAvailableProviders config now <> [] ->
  RecordOk (setCurrentIndex config
              ((currentIndex config + 1)
               mod List.length (getAvailableProviders config now))).
Proof.
  intros (Hlen & Hcur & Hcount & Htime) Hne.
  repeat split; cbn [setCurrentIndex providers currentIndex failureCount lastFailureTime];
    try assumption.
  pose proof (available_length config now) as Hle.
  assert (List.length (getAvailableProviders config now) <> 0)%nat
    by (destruct (getAvailableProviders config now); [congruence|discriminate]).
  pose proof (Nat.mod_upper_bound (currentIndex config + 1)
                (List.length (getAvailableProviders config now))).
  lia.
Qed.

Lemma StoreOk_select (candidates : list string) (sessionId : option string)
    (now : Z) (store store' : Store) (p : string) :
  StoreOk store ->
  getNextProvider candidates sessionId now store = Ok (p, store') ->
  StoreOk store'.
Proof.
  intros Hstore Hcall.
  destruct candidates as [|c1 [|c2 cs]]; [discriminate|now injection Hcall as _ <-|].
  unfold getNextProvider in Hcall.
  destruct (getOrCreate (configKeyOf sessionId) (c1 :: c2 :: cs) store)
    as [config store1] eqn:Hget.
  assert (Hboth : StoreOk store1 /\ RecordOk config).
  { unfold getOrCreate in Hget.
    destruct (store !! configKeyOf sessionId) as [c|] eqn:Hlook;
      injection Hget as <- <-.
    - split; [exact Hstore|exact (Hstore _ _ Hlook)].
    - assert (RecordOk {| providers := c1 :: c2 :: cs; currentIndex := 0;
                          lastFailureTime := 0; failureCount := 0 |})
        by (repeat split; cbn; lia).
      split; [now apply StoreOk_insert|assumption]. }
  destruct Hboth as [Hstore1 Hconfig].
  destruct (getAvailableProviders config now) as [|a0 avail] eqn:Havail;
    injection Hcall as _ <-.
  - now apply StoreOk_delete.
  - apply StoreOk_insert; [exact Hstore1|].
    pose proof (RecordOk_rotate config now Hconfig) as Hrotate.
    rewrite Havail in Hrotate. apply Hrotate. discriminate.
Qed.

Lemma StoreOk_step (store : Store) (op : Op) :
  StoreOk store -> StoreOk (step store op).
Proof.
  intros Hstore. destruct op as [c sid now|p sid e now|p sid|sid]; cbn [step].
  - destruct (getNextProvider c sid now store) as [[p store']|msg] eqn:Hcall;
      [now apply (StoreOk_select c sid now store store' p)|exact Hstore].
  - unfold recordFailure.
    destruct (store !! configKeyOf sid) as [config|] eqn:Hlook; [|exact Hstore].
    destruct (isRetryableError e); [|exact Hstore].
    apply StoreOk_insert; [exact Hstore|].
    destruct (Hstore _ _ Hlook) as (Hlen & Hcur & Hcount & Htime).
    repeat split; cbn; try assumption; lia.
  - unfold recordSuccess.
    destruct (store !! configKeyOf sid) as [config|] eqn:Hlook; [|exact Hstore].
    apply StoreOk_insert; [exact Hstore|].
    destruct (Hstore _ _ Hlook) as (Hlen & Hcur & Hcount & Htime).
    repeat split; cbn; try assumption; lia.
  - now apply StoreOk_delete.
Qed.

End StoreInvariant.

(** Whatever the operations of a run from the empty store, every record
    in the store has at least two candidates, a cursor inside its
    candidate list, a failure count that is not negative, and no failure
    time when the failure count is 0. *)
Theorem run_keeps_records_well_formed (ops : list Op) :
  StoreOk (run ops ∅).
Proof.
  unfold run.
  assert (Hgen : forall store, StoreOk store -> StoreOk (fold_left step ops store)).
  { induction ops as [|op ops IH]; intros store Hstore; [exact Hstore|].
    cbn [fold_left]. apply IH. now apply StoreOk_step. }
  apply Hgen. intros key config. rewrite lookup_empty. discriminate.
Qed.

(** [recordSuccess] on a scope with a record clears the failure count and
    the failure time and keeps the candidates and the cursor; from then
    on every candidate of the record is available at any time. On a scope
    without a record it does nothing. *)
Theorem recordSuccess_restores_availability
    (provider : string) (sessionId : option string) (store : Store) :
  (forall config,
     store !! configKeyOf sessionId = Some config ->
     exists config',
       recordSuccess provider sessionId store !! configKeyOf sessionId = Some config' /\
       providers config' = providers config /\
       currentIndex config' = currentIndex config /\
       failureCount config' = 0 /\
       lastFailureTime config' = 0 /\
       forall now, getAvailableProviders config' now = providers config) /\
  (store !! configKeyOf sessionId = None ->
   recordSuccess provider sessionId store = store).
Proof.
  unfold recordSuccess. split.
  - intros config ->. rewrite lookup_insert_eq. eexists. split; [reflexivity|].
    repeat split. intros now.
    exact (available_no_failure (setFailure config 0 0) now eq_refl).
  - now intros ->.
Qed.

Lemma recordSuccess_restores_availability_witness :
  exists config',
    recordSuccess "a" (Some "s1") afterThreeFailures !! "session_s1" = Some config' /\
    getAvailableProviders config' 5000 = ["a"; "b"].
Proof.
  destruct (recordSuccess_restores_availability "a" (Some "s1") afterThreeFailures)
    as [Hsome _].
  destruct (Hsome {| providers := ["a"; "b"]; currentIndex := 1;
                     lastFailureTime := 4000; failureCount := 3 |})
    as (config' & Hlook & _ & _ & _ & _ & Havail).
  - vm_compute. reflexivity.
  - exists config'. split; [exact Hlook|apply Havail].
Defined.

(** After [resetFailoverConfig] for a session the scope has no record,
    and the next selection starts over: it returns the first candidate
    passed and leaves a record of the candidates passed, without
    failures, with the cursor on the second candidate. *)
Theorem reset_then_select_starts_over
    (candidates : list string) (sessionId : option string)
    (now : Z) (store : Store) :
  (2 <= List.length candidates)%nat ->
  resetFailoverConfig sessionId store !! configKeyOf sessionId = None /\
  getNextProvider candidates sessionId now (resetFailoverConfig sessionId store) =
    Ok (nth 0 candidates "",
        <[configKeyOf sessionId := cleanRecord candidates 1]> store).
Proof.
  intros Hlen.
  assert (Hnone : resetFailoverConfig sessionId store !! configKeyOf sessionId = None)
    by apply lookup_delete_eq.
  split; [exact Hnone|].
  rewrite getNextProvider_fresh by assumption.
  unfold resetFailoverConfig. rewrite insert_delete_eq.
  rewrite Nat.mod_small by lia. reflexivity.
Qed.

Lemma reset_then_select_starts_over_witness :
  getNextProvider ["x"; "y"] (Some "s1") 5000
    (resetFailoverConfig (Some "s1") afterThreeFailures) =
    Ok ("x", <["session_s1" := cleanRecord ["x"; "y"] 1]> afterThreeFailures).
Proof.
  apply (reset_then_select_starts_over ["x"; "y"] (Some "s1") 5000 afterThreeFailures).
  simpl. lia.
Defined.

(** [recordFailure], [recordSuccess] and [resetFailoverConfig] for one
    scope leave the record of every other key as it was. *)
Theorem bookkeeping_is_per_scope
    (provider : string) (sessionId : option string) (error : option ErrorInfo)
    (now : Z) (store : Store) (key : string) :
  key <> configKeyOf sessionId ->
  recordFailure provider sessionId error now store !! key = store !! key /\
  recordSuccess provider sessionId store !! key = store !! key /\
  resetFailoverConfig sessionId store !! key = store !! key.
Proof.
  intros Hkey. unfold recordFailure, recordSuccess, resetFailoverConfig.
  split; [|split].
  - destruct (store !! configKeyOf sessionId); [|reflexivity].
    destruct (isRetryableError error); [|reflexivity].
    now rewrite lookup_insert_ne.
  - destruct (store !! configKeyOf sessionId); [|reflexivity].
    now rewrite lookup_insert_ne.
  - now rewrite lookup_delete_ne.
Qed.

Lemma bookkeeping_is_per_scope_witness :
  recordFailure "a" (Some "s2") (httpError 500) 4500 afterThreeFailures !! "session_s1"
  = afterThreeFailures !! "session_s1".
Proof.
  apply (bookkeeping_is_per_scope "a" (Some "s2") (httpError 500) 4500
           afterThreeFailures "session_s1").
  discriminate.
Defined.

(** A retryable failure that leaves the failure count below 3 does not
    change the next selection: the provider returned is the one the
    cursor was on before the failure, which may be the provider that
    failed. *)
Theorem failure_below_max_keeps_rotation
    (candidates : list string) (provider : string) (sessionId : option string)
    (error : option ErrorInfo) (failedAt now : Z) (store : Store)
    (config : FailoverConfig) :
  (2 <= List.length candidates)%nat ->
  store !! configKeyOf sessionId = Some config ->
  providers config <> [] ->
  0 <= failureCount config ->
  failureCount config + 1 < MAX_FAILURES ->
  isRetryableError error = true ->
  exists store1 store2,
    let p := nth (currentIndex config mod List.length (providers config))
                 (providers config) "" in
    getNextProvider candidates sessionId now store = Ok (p, store1) /\
    getNextProvider candidates sessionId now
      (recordFailure provider sessionId error failedAt store) = Ok (p, store2).
Proof.
  intros Hlen Hlook Hne Hcount Hbelow Hretry.
  destruct candidates as [|c1 [|c2 cs]]; simpl in Hlen; try lia.
  destruct (providers config) as [|a0 avail] eqn:Hprov; [congruence|].
  unfold MAX_FAILURES in Hbelow.
  assert (Hall : getAvailableProviders config now = a0 :: avail).
  { rewrite <- Hprov. apply available_all. intros q.
    apply providerAvailable_true. lia. }
  rewrite (recordFailure_retryable _ _ _ _ _ _ Hlook Hretry).
  set (config1 := setFailure config (failureCount config + 1) failedAt).
  assert (Hall1 : getAvailableProviders config1 now = a0 :: avail).
  { rewrite <- Hprov. apply (available_all config1). intros q.
    apply providerAvailable_true. cbn. lia. }
  eexists _, _. cbv zeta. split.
  - rewrite (getNextProvider_rotates c1 c2 cs sessionId now store config Hlook
               a0 avail Hall).
    f_equal. f_equal. apply nth_indep.
    apply Nat.mod_upper_bound. discriminate.
  - rewrite (getNextProvider_rotates c1 c2 cs sessionId now _ config1
               (lookup_insert_eq _ _ _) a0 avail Hall1).
    f_equal. f_equal. apply nth_indep.
    apply Nat.mod_upper_bound. discriminate.
Qed.

Lemma failure_below_max_keeps_rotation_witness :
  exists store1 store2,
    getNextProvider ["a"; "b"] (Some "s1") 1500
      (<["session_s1" := cleanRecord ["a"; "b"] 0]> ∅) = Ok ("a", store1) /\
    getNextProvider ["a"; "b"] (Some "s1") 1500
      (recordFailure "a" (Some "s1") (httpError 500) 1200
         (<["session_s1" := cleanRecord ["a"; "b"] 0]> ∅)) = Ok ("a", store2).
Proof.
  apply (failure_below_max_keeps_rotation ["a"; "b"] "a" (Some "s1")
           (httpError 500) 1200 1500
           (<["session_s1" := cleanRecord ["a"; "b"] 0]> ∅)
           (cleanRecord ["a"; "b"] 0)).
  - simpl. lia.
  - reflexivity.
  - discriminate.
  - reflexivity.
  - reflexivity.
  - reflexivity.
Defined.

(** A scope whose failure count has reached 3 is served by the clock
    alone. Up to 30000 ms after the last failure every selection returns
    the first candidate passed; later, selections rotate over the
    record's candidates again, and the failure count and failure time of
    the record stay as they were. *)
Theorem cooldown_gates_exhausted_scope
    (first second : string) (rest : list string) (sessionId : option string)
    (now : Z) (store : Store) (config : FailoverConfig) :
  store !! configKeyOf sessionId = Some config ->
  providers config <> [] ->
  MAX_FAILURES <= failureCount config ->
  (now - lastFailureTime config <= FAILURE_COOLDOWN_MS ->
   exists store',
     getNextProvider (first :: second :: rest) sessionId now store
     = Ok (first, store')) /\
  (now - lastFailureTime config > FAILURE_COOLDOWN_MS ->
   exists store' config',
     getNextProvider (first :: second :: rest) sessionId now store
     = Ok (nth (currentIndex config mod List.length (providers config))
               (providers config) "", store') /\
     store' !! configKeyOf sessionId = Some config' /\
     failureCount config' = failureCount config /\
     lastFailureTime config' = lastFailureTime config).
Proof.
  unfold MAX_FAILURES, FAILURE_COOLDOWN_MS. intros Hlook Hne Hmax. split.
  - intros Hcool. eexists.
    apply (getNextProvider_exhausted first second rest sessionId now store config Hlook).
    apply available_none. intros p. apply providerAvailable_false. lia.
  - intros Hcooled.
    destruct (providers config) as [|a0 avail] eqn:Hprov; [congruence|].
    assert (Hall : getAvailableProviders config now = a0 :: avail).
    { rewrite <- Hprov. apply available_all. intros q.
      apply providerAvailable_true. lia. }
    set (config' := setCurrentIndex config
                      ((currentIndex config + 1) mod S (List.length avail))).
    exists (<[configKeyOf sessionId := config']> store), config'.
    split; [|split; [apply lookup_insert_eq|split; reflexivity]].
    rewrite (getNextProvider_rotates first second rest sessionId now store config
               Hlook a0 avail Hall).
    f_equal. f_equal. apply nth_indep. apply Nat.mod_upper_bound. discriminate.
Qed.

Lemma cooldown_gates_exhausted_scope_witness :
  (exists store',
     getNextProvider ["x"; "y"] (Some "s1") 34000 afterThreeFailures = Ok ("x", store')) /\
  (exists store' config',
     getNextProvider ["x"; "y"] (Some "s1") 34001 afterThreeFailures = Ok ("b", store') /\
     store' !! "session_s1" = Some config' /\
     failureCount config' = 3 /\
     lastFailureTime config' = 4000).
Proof.
  assert (Hlook : afterThreeFailures !! configKeyOf (Some "s1") =
                  Some {| providers := ["a"; "b"]; currentIndex := 1;
                          lastFailureTime := 4000; failureCount := 3 |})
    by (vm_compute; reflexivity).
  split.
  - apply (cooldown_gates_exhausted_scope "x" "y" [] (Some "s1") 34000 _ _ Hlook);
      [discriminate|discriminate|discriminate].
  - apply (cooldown_gates_exhausted_scope "x" "y" [] (Some "s1") 34001 _ _ Hlook);
      [discriminate|discriminate|reflexivity].
Defined.

(** * Further properties of the retryable-error predicate *)

Lemma existsb_Zeqb (n : Z) (l : list Z) : existsb (Z.eqb n) l = true <-> In n l.
Proof.
  rewrite existsb_exists. split.
  - intros (x & Hin & Heq). apply Z.eqb_eq in Heq. now subst.
  - intros Hin. exists n. split; [exact Hin|apply Z.eqb_refl].
Qed.

Lemma existsb_Seqb (s : string) (l : list string) :
  existsb (String.eqb s) l = true <-> In s l.
Proof.
  rewrite existsb_exists. split.
  - intros (x & Hin & Heq). apply String.eqb_eq in Heq. now subst.
  - intros Hin. exists s. split; [exact Hin|apply String.eqb_refl].
Qed.

(** [isRetryableError] accepts an error exactly when the error is present
    and its status or the status of its response is one of 429, 500, 502,
    503, 504, 408, 524, or its code is one of the five connection codes,
    or its message contains [timeout] as written, or its lower-cased
    message contains [rate limit] or [too many requests]. *)
Theorem isRetryableError_accepts_exactly (error : option ErrorInfo) :
  isRetryableError error = true <->
  exists e,
    error = Some e /\
    ((exists n, status e = Some n /\ In n [429; 500; 502; 503; 504; 408; 524]) \/
     (exists n, response_status e = Some n /\
                In n [429; 500; 502; 503; 504; 408; 524]) \/
     (exists c, code e = Some c /\
                In c ["ECONNABORTED"; "ETIMEDOUT"; "ENOTFOUND";
                      "ECONNREFUSED"; "ECONNRESET"]) \/
     (exists m, message e = Some m /\
                (JS.includes m "timeout" = true \/
                 JS.includes (JS.toLowerCase m) "rate limit" = true \/
                 JS.includes (JS.toLowerCase m) "too many requests" = true))).
Proof.
  destruct error as [e|]; [|split; [discriminate|intros (e & [=] & _)]].
  rewrite isRetryableError_exact, !orb_true_iff.
  unfold statusListed, codeListed, messageIncludes, containsIgnoringCase.
  change (JS.toLowerCase "rate limit") with "rate limit".
  change (JS.toLowerCase "too many requests") with "too many requests".
  change retryableStatusCodes with [429; 500; 502; 503; 504; 408; 524].
  change connectionCodes with ["ECONNABORTED"; "ETIMEDOUT"; "ENOTFOUND";
                               "ECONNREFUSED"; "ECONNRESET"].
  split.
  - intros H. exists e. split; [reflexivity|].
    destruct H as [[[[[H|H]|H]|H]|H]|H].
    + left. destruct (status e) as [n|]; [|discriminate].
      exists n. split; [reflexivity|now apply existsb_Zeqb].
    + right; left. destruct (response_status e) as [n|]; [|discriminate].
      exists n. split; [reflexivity|now apply existsb_Zeqb].
    + right; right; left. destruct (code e) as [c|]; [|discriminate].
      exists c. split; [reflexivity|now apply existsb_Seqb].
    + right; right; right. destruct (message e) as [m|]; [|discriminate]. eauto.
    + right; right; right. destruct (message e) as [m|]; [|discriminate]. eauto.
    + right; right; right. destruct (message e) as [m|]; [|discriminate]. eauto 6.
  - intros (e' & [= <-] & H).
    destruct H as [(n & -> & H)|[(n & -> & H)|[(c & -> & H)|(m & -> & H)]]].
    + do 5 left. now apply existsb_Zeqb.
    + do 4 left. right. now apply existsb_Zeqb.
    + do 3 left. right. now apply existsb_Seqb.
    + destruct H as [H|[H|H]]; [do 2 left; now right|left; now right|now right].
Qed.

(** * Further properties of the model selection *)

Section Cut.

Lemma startsWith_app (p r : string) : JS.startsWith (p +:+ r) p = true.
Proof.
  induction p as [|c p IH]; [reflexivity|].
  simpl. now rewrite Ascii.eqb_refl.
Qed.


Lemma startsWith_decompose (s p : string) :
  JS.startsWith s p = true -> s = p +:+ JS.drop (String.length p) s.
Proof.
  revert s. induction p as [|c p IH]; intros s H; [reflexivity|].
  destruct s as [|b s]; [discriminate H|].
  simpl in H. apply andb_true_iff in H. destruct H as [Hc Hrest].
  apply Ascii.eqb_eq in Hc. subst b.
  change (String c s = String c (p +:+ JS.drop (String.length p) s)).
  f_equal. now apply IH.
Qed.

Lemma startsWith_prefix (s t p : string) :
  JS.startsWith s p = true -> JS.startsWith (s +:+ t) p = true.
Proof.
  revert s. induction p as [|c p IH]; intros s H; [reflexivity|].
  destruct s as [|b s]; [discriminate H|].
  simpl in *. apply andb_true_iff in H. destruct H as [-> Hrest].
  now rewrite IH.
Qed.

(** [cut] returns the text around the first occurrence. *)
Lemma cut_Some (c : ascii) (n s before after : string) :
  JS.cut (String c n) s = Some (before, after) ->
  s = before +:+ String c n +:+ after /\
  JS.includes before (String c n) = false.
Proof.
  revert before after. induction s as [|x s IH]; intros before after H.
  - discriminate H.
  - cbn [JS.cut] in H.
    destruct (JS.startsWith (String x s) (String c n)) eqn:Hstart.
    + injection H as <- <-. split; [|reflexivity].
      exact (startsWith_decompose _ _ Hstart).
    + destruct (JS.cut (String c n) s) as [[b a]|] eqn:Hcut; [|discriminate H].
      injection H as <- <-. destruct (IH b a eq_refl) as [-> Hnot].
      split; [reflexivity|].
      cbn [JS.includes]. rewrite Hnot, orb_false_r.
      destruct (JS.startsWith (String x b) (String c n)) eqn:Hpre; [|reflexivity].
      apply (startsWith_prefix _ (String c n +:+ a)) in Hpre.
      change (String x b +:+ String c n +:+ a)
        with (String x (b +:+ String c n +:+ a)) in Hpre.
      congruence.
Qed.

Lemma cut_None (n s : string) :
  JS.cut n s = None <-> JS.includes s n = false.
Proof.
  induction s as [|x s IH]; cbn [JS.cut JS.includes].
  - destruct (JS.startsWith "" n); [split; discriminate|tauto].
  - destruct (JS.startsWith (String x s) n); [split; discriminate|].
    cbn [orb]. rewrite <- IH.
    destruct (JS.cut n s) as [[b a]|]; [split; discriminate|tauto].
Qed.


Lemma append_empty_r (s : string) : s +:+ "" = s.
Proof.
  induction s as [|x s IH]; [reflexivity|].
  change (String x (s +:+ "") = String x s). now rewrite IH.
Qed.

End Cut.

Lemma includes_occurrence (sep pre post : string) :
  JS.includes (pre +:+ sep +:+ post) sep = true.
Proof.
  induction pre as [|x pre IH].
  - change ("" +:+ sep +:+ post) with (sep +:+ post).
    destruct (sep +:+ post) eqn:E; cbn [JS.includes]; rewrite <- E;
      now rewrite startsWith_app.
  - change (String x pre +:+ sep +:+ post) with (String x (pre +:+ sep +:+ post)).
    cbn [JS.includes]. rewrite IH. apply orb_true_r.
Qed.

Lemma append_same_length (a b x y : string) :
  a +:+ x = b +:+ y -> String.length a = String.length b -> a = b /\ x = y.
Proof.
  revert b. induction a as [|c a IH]; intros [|d b] Heq Hlen;
    try discriminate Hlen.
  - split; [reflexivity|exact Heq].
  - change (String c (a +:+ x) = String d (b +:+ y)) in Heq.
    injection Heq as -> Heq. injection Hlen as Hlen.
    destruct (IH b Heq Hlen) as [-> ->]. split; reflexivity.
Qed.

(** [cut] finds the first occurrence, and only that. *)
Lemma cut_first (c : ascii) (n s pre post : string) :
  JS.cut (String c n) s = Some (pre, post) <->
  FirstOccurrence (String c n) s pre post.
Proof.
  assert (Hmin : forall s pre post,
             JS.cut (String c n) s = Some (pre, post) ->
             forall pre' post', s = pre' +:+ String c n +:+ post' ->
                                (String.length pre <= String.length pre')%nat).
  { clear s pre post. induction s as [|x s IH]; intros pre post Hcut pre' post' Hs.
    - discriminate Hcut.
    - cbn [JS.cut] in Hcut.
      destruct (JS.startsWith (String x s) (String c n)) eqn:Hstart.
      + injection Hcut as <- _. cbn [String.length]. lia.
      + destruct (JS.cut (String c n) s) as [[b a]|] eqn:Hrest; [|discriminate Hcut].
        injection Hcut as <- <-.
        destruct pre' as [|y pre'].
        * change ("" +:+ String c n +:+ post') with (String c n +:+ post') in Hs.
          rewrite Hs, startsWith_app in Hstart. discriminate Hstart.
        * change (String y pre' +:+ String c n +:+ post')
            with (String y (pre' +:+ String c n +:+ post')) in Hs.
          injection Hs as _ Hs. cbn [String.length].
          pose proof (IH b a eq_refl pre' post' Hs). lia. }
  split.
  - intros Hcut. split; [exact (proj1 (cut_Some c n s pre post Hcut))|].
    exact (Hmin s pre post Hcut).
  - intros [Hs Hleast].
    destruct (JS.cut (String c n) s) as [[pre' post']|] eqn:Hcut.
    + pose proof (proj1 (cut_Some c n s pre' post' Hcut)) as Hs'.
      pose proof (Hmin s pre' post' Hcut pre post Hs) as H1.
      pose proof (Hleast pre' post' Hs') as H2.
      rewrite Hs in Hs'.
      destruct (append_same_length pre pre' _ _ Hs') as [-> Hrest]; [lia|].
      destruct (append_same_length (String c n) (String c n) post post' Hrest eq_refl)
        as [_ ->].
      reflexivity.
    + apply cut_None in Hcut. rewrite Hs, includes_occurrence in Hcut.
      discriminate Hcut.
Qed.

(** The session id read from a user id. No session id is found exactly
    when the user id does not contain [_session_]. Otherwise the session
    id is what follows the first [_session_] of the user id: all of it
    when it contains no further [_session_], and else its text before
    its own first [_session_]. *)
Theorem parseSessionId_takes_text_after_separator (uid sid : string) :
  (parseSessionId (Some uid) = None <-> JS.includes uid "_session_" = false) /\
  (parseSessionId (Some uid) = Some sid <->
   exists before after,
     FirstOccurrence "_session_" uid before after /\
     ((JS.includes after "_session_" = false /\ sid = after) \/
      exists more, FirstOccurrence "_session_" after sid more)).
Proof.
  unfold parseSessionId, SESSION_SEPARATOR. split.
  - destruct uid as [|x uid]; [split; reflexivity|]. cbn [JS.truthy].
    rewrite <- cut_None.
    destruct (JS.cut "_session_" (String x uid)) as [[before after]|];
      [|tauto].
    destruct (JS.cut "_session_" after) as [[second rest]|]; split; discriminate.
  - split.
    + intros H. destruct uid as [|x uid]; [discriminate H|]. cbn [JS.truthy] in H.
      destruct (JS.cut "_session_" (String x uid)) as [[before after]|] eqn:Hfirst;
        [|discriminate H].
      exists before, after. split; [now apply cut_first|].
      destruct (JS.cut "_session_" after) as [[second rest]|] eqn:Hsecond;
        injection H as <-.
      * right. exists rest. now apply cut_first.
      * left. split; [now apply cut_None|reflexivity].
    + intros (before & after & Hfirst & Hsid).
      assert (Hne : JS.truthy uid = true).
      { destruct Hfirst as [-> _]. now destruct before. }
      rewrite Hne. apply cut_first in Hfirst. rewrite Hfirst.
      destruct Hsid as [[Hnone ->]|[more Hsecond]].
      * apply cut_None in Hnone. now rewrite Hnone.
      * apply cut_first in Hsecond. now rewrite Hsecond.
Qed.

Lemma parseSessionId_takes_text_after_separator_witness :
  parseSessionId (Some "_session_session_x") = Some "session_x" /\
  parseSessionId (Some "user_1f_account__session_42ab_session_7") = Some "42ab".
Proof.
  split.
  - apply (parseSessionId_takes_text_after_separator "_session_session_x" "session_x").
    exists "", "session_x". split.
    + split; [reflexivity|]. intros pre' post' _. cbn [String.length]. lia.
    + left. split; reflexivity.
  - apply (parseSessionId_takes_text_after_separator
             "user_1f_account__session_42ab_session_7" "42ab").
    exists "user_1f_account_", "42ab_session_7". split.
    + apply (cut_first "_" "session_"). reflexivity.
    + right. exists "7". apply (cut_first "_" "session_"). reflexivity.
Defined.

(** [getModelFromConfig] throws exactly on a missing value, the empty
    string and the empty list. A non-empty string is returned as it is,
    with the failover store untouched; a non-empty list goes to
    [getNextProvider]. *)
Theorem getModelFromConfig_resolves_or_rejects
    (v : RouterValue) (sessionId : option string) (now : Z) (store : Store) :
  ((exists msg, getModelFromConfig v sessionId now store = Throw msg) <->
   v = Undefined \/ v = Single "" \/ v = Candidates []) /\
  (forall s, v = Single s -> s <> "" ->
             getModelFromConfig v sessionId now store = Ok (s, store)) /\
  (forall l, v = Candidates l -> l <> [] ->
             getModelFromConfig v sessionId now store =
             getNextProvider l sessionId now store).
Proof.
  split; [|split].
  - split.
    + intros [msg H]. exact (getModelFromConfig_throws _ _ _ _ _ H).
    + intros [-> | [-> | ->]]; cbn; eauto.
  - intros s -> Hs. destruct s; [congruence|reflexivity].
  - intros l -> Hl. destruct l; [congruence|reflexivity].
Qed.

Lemma getModelFromConfig_resolves_or_rejects_witness :
  (exists msg, getModelFromConfig (Candidates []) None 0 ∅ = Throw msg) /\
  getModelFromConfig (Single "openrouter,gpt-4") (Some "s1") 5000 afterThreeFailures
  = Ok ("openrouter,gpt-4", afterThreeFailures).
Proof.
  split.
  - apply (getModelFromConfig_resolves_or_rejects (Candidates []) None 0 ∅).
    right; right; reflexivity.
  - apply (getModelFromConfig_resolves_or_rejects (Single "openrouter,gpt-4")
             (Some "s1") 5000 afterThreeFailures); [reflexivity|discriminate].
Defined.

(** The long-context rule. For a requested model without a comma and a
    truthy long-context configuration, a token count above the threshold
    (60000 when none or 0 is configured), or a token count above 20000
    after a request whose input tokens were above the threshold, resolves
    the long-context configuration, whatever the system prompt, the
    thinking flag and the tools are. *)
Theorem long_context_rule_comes_first
    (req : Request) (tokenCount : Z) (config : Config) (lastUsage : option Z)
    (now : Z) (store : Store) (requested : string) (threshold : Z) :
  model req = Some requested ->
  JS.includes requested "," = false ->
  truthyValue (longContext (Router config)) = true ->
  threshold = match longContextThreshold (Router config) with
              | Some t => if Z.eqb t 0 then 60000 else t
              | None => 60000
              end ->
  tokenCount > threshold \/
  (exists input_tokens, lastUsage = Some input_tokens /\
                        input_tokens > threshold /\ tokenCount > 20000) ->
  getUseModel req tokenCount config lastUsage now store =
    match getModelFromConfig (longContext (Router config)) (sessionId req) now store with
    | Ok (m, store') => Ok (m, req, store')
    | Throw msg => Throw msg
    end.
Proof.
  intros Hmodel Hcomma Htruthy Hthreshold Hlong.
  unfold getUseModel. rewrite Hmodel, Hcomma.
  assert (Huses : usesLongContext tokenCount config lastUsage = true).
  { unfold usesLongContext. rewrite <- Hthreshold, Htruthy, andb_true_r.
    apply orb_true_iff. destruct Hlong as [H|(it & -> & H1 & H2)].
    - right. apply Z.gtb_lt. lia.
    - left. apply andb_true_iff. split; apply Z.gtb_lt; lia. }
  rewrite Huses. unfold mbind, result_bind.
  destruct (getModelFromConfig _ _ _ _) as [[m store']|msg]; reflexivity.
Qed.

Lemma long_context_rule_comes_first_witness :
  getUseModel (requestFor (Some "claude-sonnet-4")) 70000
    {| Providers := [];
       Router := {| default := Single "p,m"; longContext := Single "bigmodel";
                    background := Undefined; think := Undefined;
                    webSearch := Undefined; longContextThreshold := None |} |}
    None 0 ∅
  = Ok ("bigmodel", requestFor (Some "claude-sonnet-4"), ∅).
Proof.
  exact (long_context_rule_comes_first (requestFor (Some "claude-sonnet-4")) 70000
           {| Providers := [];
              Router := {| default := Single "p,m"; longContext := Single "bigmodel";
                           background := Undefined; think := Undefined;
                           webSearch := Undefined; longContextThreshold := None |} |}
           None 0 ∅ "claude-sonnet-4" 60000
           eq_refl eq_refl eq_refl eq_refl (or_introl eq_refl)).
Defined.

(** A token count of at most 20000 that is not above the threshold never
    selects the long-context configuration: the selection is the one for
    a token count of 0 without a previous usage. *)
Theorem small_request_ignores_usage
    (req : Request) (tokenCount : Z) (config : Config) (lastUsage : option Z)
    (now : Z) (store : Store) :
  tokenCount <= 20000 ->
  tokenCount <= match longContextThreshold (Router config) with
                | Some t => if Z.eqb t 0 then 60000 else t
                | None => 60000
                end ->
  0 <= match longContextThreshold (Router config) with
       | Some t => t
       | None => 0
       end ->
  getUseModel req tokenCount config lastUsage now store =
  getUseModel req 0 config None now store.
Proof.
  intros Hsmall Hbelow Hpos. unfold getUseModel.
  destruct (model req) as [requested|]; [|reflexivity].
  destruct (JS.includes requested ","); [reflexivity|].
  assert (Hnot : forall tc lu,
             tc <= 20000 ->
             tc <= match longContextThreshold (Router config) with
                   | Some t => if Z.eqb t 0 then 60000 else t
                   | None => 60000
                   end ->
             usesLongContext tc config lu = false).
  { intros tc lu H1 H2. unfold usesLongContext.
    apply andb_false_iff. left. apply orb_false_iff. split.
    - destruct lu as [it|]; [|reflexivity].
      apply andb_false_iff. right. rewrite Z.gtb_ltb. apply Z.ltb_ge. lia.
    - rewrite Z.gtb_ltb. apply Z.ltb_ge. exact H2. }
  rewrite (Hnot tokenCount lastUsage Hsmall Hbelow).
  rewrite (Hnot 0 None); [reflexivity|lia|].
  destruct (longContextThreshold (Router config)) as [t|]; [|lia].
  destruct (Z.eqb_spec t 0); lia.
Qed.

Lemma small_request_ignores_usage_witness :
  getUseModel (requestFor (Some "claude-sonnet-4")) 15000 testConfig (Some 90000) 0 ∅ =
  getUseModel (requestFor (Some "claude-sonnet-4")) 0 testConfig None 0 ∅.
Proof.
  apply small_request_ignores_usage; [discriminate|discriminate|reflexivity].
Defined.





Lemma truthy_value_resolves (v : RouterValue) (sessionId : option string)
    (now : Z) (store : Store) :
  truthyValue v = true -> v <> Candidates [] ->
  exists m store', getModelFromConfig v sessionId now store = Ok (m, store').
Proof.
  intros Htruthy Hne. apply getModelFromConfig_returns; try exact Hne.
  - intros ->. discriminate Htruthy.
  - intros ->. discriminate Htruthy.
Qed.

(** With a requested model, a default that is a non-empty string or a
    non-empty list, and no rule configured with the empty list,
    [getUseModel] returns a model: none of its rules throws. *)
Theorem getUseModel_returns_on_usable_config
    (req : Request) (tokenCount : Z) (config : Config) (lastUsage : option Z)
    (now : Z) (store : Store) (requested : string) :
  model req = Some requested ->
  default (Router config) <> Undefined ->
  default (Router config) <> Single "" ->
  default (Router config) <> Candidates [] ->
  longContext (Router config) <> Candidates [] ->
  background (Router config) <> Candidates [] ->
  think (Router config) <> Candidates [] ->
  webSearch (Router config) <> Candidates [] ->
  exists m req' store',
    getUseModel req tokenCount config lastUsage now store = Ok (m, req', store').
Proof.
  intros Hmodel Hd1 Hd2 Hd3 Hlong Hback Hthink Hweb.
  unfold getUseModel. rewrite Hmodel.
  destruct (JS.includes requested ","); [eauto|].
  destruct (usesLongContext tokenCount config lastUsage) eqn:Huses.
  - unfold usesLongContext in Huses. apply andb_true_iff in Huses.
    destruct Huses as [_ Htruthy].
    destruct (truthy_value_resolves _ (sessionId req) now store Htruthy Hlong)
      as (m & store' & ->). cbn. eauto.
  - destruct (subagentModel req) as [[m req']|]; [eauto|].
    assert (Hroute : exists m store',
               getModelFromConfig (routeByKind requested req config)
                 (sessionId req) now store = Ok (m, store')).
    { unfold routeByKind.
      destruct (JS.startsWith requested "claude-3-5-haiku"
                && truthyValue (background (Router config))) eqn:E1.
      { apply andb_true_iff in E1. now apply truthy_value_resolves. }
      destruct (thinking req && truthyValue (think (Router config))) eqn:E2.
      { apply andb_true_iff in E2. now apply truthy_value_resolves. }
      match goal with
      | |- context [if ?b then _ else _] => destruct b eqn:E3
      end.
      { apply andb_true_iff in E3. now apply truthy_value_resolves. }
      now apply getModelFromConfig_returns. }
    destruct Hroute as (m & store' & ->). cbn. eauto.
Qed.

Lemma getUseModel_returns_on_usable_config_witness :
  exists m req' store',
    getUseModel (requestFor (Some "claude-3-5-haiku-20241022")) 100
      testConfig None 0 ∅ = Ok (m, req', store').
Proof.
  apply (getUseModel_returns_on_usable_config _ _ _ _ _ _ "claude-3-5-haiku-20241022");
    [reflexivity|discriminate..].
Defined.

Lemma router_assigns_string_witness :
  exists m req' store',
    router (requestFor None) (Throw "tokenizer") None testConfig None 0 ∅
    = Ok (mkRouted (Single m) req' store').
Proof.
  apply router_assigns_string; discriminate.
Defined.



(** * Properties of the token count *)

Section TokenCountFacts.

Variable encode : string -> nat.
Variable Json : Type.
Variable stringify : Json -> string.

Abbreviation count := (TokenCount.calculateTokenCount encode Json stringify).

Lemma fold_left_add {A : Type} (f : A -> nat) (l : list A) (start : nat) :
  fold_left (fun n x => n + f x)%nat l start
  = (start + fold_left (fun n x => n + f x)%nat l 0)%nat.
Proof.
  revert start. induction l as [|x l IH]; intros start; cbn [fold_left].
  - lia.
  - rewrite (IH (start + f x)%nat), (IH (0 + f x)%nat). lia.
Qed.

(** The token count is the sum of what the messages, the system prompt
    and the tools give when each is counted alone. *)
Theorem token_count_is_sum_of_parts
    (messages : option (list (TokenCount.MessageContent Json)))
    (system : TokenCount.SystemPrompt)
    (tools : option (list (TokenCount.Tool Json))) :
  count messages system tools
  = (count messages TokenCount.SystemOther None
     + count None system None
     + count None TokenCount.SystemOther tools)%nat.
Proof.
  unfold TokenCount.calculateTokenCount.
  destruct messages as [ms|], system as [s|items|], tools as [ts|];
    repeat match goal with
      | |- context [fold_left ?f ?l ?start] =>
          lazymatch start with
          | 0%nat => fail
          | _ => rewrite (fold_left_add _ l start)
          end
      end; lia.
Qed.

(** Messages add up: the count of a conversation with further messages
    appended is the count before plus the count of the further messages
    alone, so it never goes down when a conversation grows. *)
Theorem token_count_adds_over_messages
    (ms more : list (TokenCount.MessageContent Json))
    (system : TokenCount.SystemPrompt)
    (tools : option (list (TokenCount.Tool Json))) :
  count (Some (ms ++ more)) system tools
  = (count (Some ms) system tools
     + count (Some more) TokenCount.SystemOther None)%nat /\
  (count (Some ms) system tools <= count (Some (ms ++ more)) system tools)%nat.
Proof.
  assert (Heq : count (Some (ms ++ more)) system tools
                = (count (Some ms) system tools
                   + count (Some more) TokenCount.SystemOther None)%nat).
  { rewrite (token_count_is_sum_of_parts (Some (ms ++ more))).
    rewrite (token_count_is_sum_of_parts (Some ms) system tools).
    unfold TokenCount.calculateTokenCount at 1 4 7.
    rewrite fold_left_app, fold_left_add. lia. }
  split; [exact Heq|]. rewrite Heq. lia.
Qed.

End TokenCountFacts.

(** * Properties of the selection state of the combobox *)

Section ComboboxFacts.

Import Combobox.

Lemma includes_In (selectedValues : list string) (v : string) :
  includes selectedValues v = true <-> In v selectedValues.
Proof.
  unfold includes. apply existsb_Seqb.
Qed.

Lemma remove_In (selectedValues : list string) (v w : string) :
  In w (handleRemove selectedValues v) <-> In w selectedValues /\ w <> v.
Proof.
  unfold handleRemove. rewrite filter_In, negb_true_iff, String.eqb_neq. tauto.
Qed.

Lemma remove_absent (selectedValues : list string) (v : string) :
  ~ In v selectedValues -> handleRemove selectedValues v = selectedValues.
Proof.
  unfold handleRemove. induction selectedValues as [|x l IH]; intros Hnot.
  - reflexivity.
  - cbn [List.filter]. destruct (String.eqb_spec x v) as [->|Hne].
    + contradiction Hnot. now left.
    + cbn [negb]. f_equal. apply IH. intros Hin. apply Hnot. now right.
Qed.

(** Toggling a value flips whether it is selected and leaves every other
    value selected or not as it was. *)
Theorem handleToggle_flips_one_value (selectedValues : list string) (v w : string) :
  (In v (handleToggle selectedValues v) <-> ~ In v selectedValues) /\
  (w <> v -> (In w (handleToggle selectedValues v) <-> In w selectedValues)).
Proof.
  unfold handleToggle.
  destruct (includes selectedValues v) eqn:E.
  - apply includes_In in E.
    change (List.filter (fun x => negb (String.eqb x v)) selectedValues)
      with (handleRemove selectedValues v).
    rewrite !remove_In. tauto.
  - assert (Hnot : ~ In v selectedValues)
      by (rewrite <- includes_In; congruence).
    rewrite !in_app_iff. cbn [In]. split.
    + tauto.
    + intros Hne. split; [intros [H|[H|[]]]; [exact H|congruence]|tauto].
Qed.

Lemma handleToggle_flips_one_value_witness :
  In "b" (handleToggle ["a"; "c"] "b") /\ ~ In "a" (handleToggle ["a"; "c"] "a").
Proof.
  split.
  - apply (proj1 (handleToggle_flips_one_value ["a"; "c"] "b" "b")).
    intros [H|[H|[]]]; discriminate H.
  - intros H.
    apply (proj1 (handleToggle_flips_one_value ["a"; "c"] "a" "a")) in H.
    apply H. now left.
Defined.

(** Toggling a value twice gives the selection back when the value was
    not selected; when it was, the value ends up last. *)
Theorem handleToggle_twice (selectedValues : list string) (v : string) :
  (~ In v selectedValues ->
   handleToggle (handleToggle selectedValues v) v = selectedValues) /\
  (In v selectedValues ->
   handleToggle (handleToggle selectedValues v) v
   = handleRemove selectedValues v ++ [v]).
Proof.
  split.
  - intros Hnot. unfold handleToggle at 2.
    assert (E : includes selectedValues v = false).
    { destruct (includes selectedValues v) eqn:E; [|reflexivity].
      apply includes_In in E. contradiction. }
    rewrite E. unfold handleToggle.
    assert (E' : includes (selectedValues ++ [v]) v = true)
      by (apply includes_In, in_app_iff; right; now left).
    rewrite E', List.filter_app. cbn [List.filter].
    rewrite String.eqb_refl. cbn [negb]. rewrite app_nil_r.
    now apply remove_absent.
  - intros Hin. unfold handleToggle at 2.
    assert (E : includes selectedValues v = true) by now apply includes_In.
    rewrite E. unfold handleToggle.
    change (List.filter (fun x => negb (String.eqb x v)) selectedValues)
      with (handleRemove selectedValues v).
    assert (E' : includes (handleRemove selectedValues v) v = false).
    { destruct (includes (handleRemove selectedValues v) v) eqn:E'; [|reflexivity].
      apply includes_In, remove_In in E'. tauto. }
    now rewrite E'.
Qed.

Lemma handleToggle_twice_witness :
  handleToggle (handleToggle ["a"; "c"] "b") "b" = ["a"; "c"] /\
  handleToggle (handleToggle ["a"; "c"] "a") "a" = ["c"; "a"].
Proof.
  split.
  - apply handleToggle_twice. intros [H|[H|[]]]; discriminate H.
  - apply (handleToggle_twice ["a"; "c"] "a"). now left.
Defined.

(** A selection without repeated values stays without repeated values
    under toggling and removing. *)
Theorem selection_stays_duplicate_free (selectedValues : list string) (v : string) :
  List.NoDup selectedValues ->
  List.NoDup (handleToggle selectedValues v) /\
  List.NoDup (handleRemove selectedValues v).
Proof.
  intros Hnodup.
  assert (Hremove : List.NoDup (handleRemove selectedValues v))
    by now apply List.NoDup_filter.
  split; [|exact Hremove].
  unfold handleToggle. destruct (includes selectedValues v) eqn:E; [exact Hremove|].
  assert (Hnot : ~ In v selectedValues)
    by (rewrite <- includes_In; congruence).
  clear E Hremove. induction Hnodup as [|x l Hx Hl IH]; cbn [app].
  - constructor; [intros []|constructor].
  - constructor.
    + rewrite in_app_iff. cbn [In]. intros [H|[H|[]]]; [tauto|].
      apply Hnot. now left.
    + apply IH. intros H. apply Hnot. now right.
Qed.

Lemma selection_stays_duplicate_free_witness :
  List.NoDup (handleToggle ["a"; "c"] "b").
Proof.
  apply (selection_stays_duplicate_free ["a"; "c"] "b").
  repeat constructor; cbn [In]; intros H; decompose [or] H; try discriminate; tauto.
Defined.

Lemma includes_self (s : string) : JS.includes s s = true.
Proof.
  assert (H : JS.startsWith s s = true).
  { rewrite <- (append_empty_r s) at 1. apply startsWith_app. }
  destruct s; cbn [JS.includes]; now rewrite H.
Qed.

Lemma toLowerCase_idempotent (s : string) :
  JS.toLowerCase (JS.toLowerCase s) = JS.toLowerCase s.
Proof.
  apply toLowerCase_fixes_lowercase, hasUpper_toLowerCase.
Qed.

(** The option filter, for labels and a search term that are ASCII (the
    strings on which [JS.toLowerCase] is JavaScript's). The empty search
    term keeps every option; the letter case of the term does not
    matter; and an option is always kept when the term is its own
    label. *)
Theorem filteredOptions_ignores_case
    (options : list MultiSelectOption) (searchTerm : string) :
  (forall option, In option options -> JS.isAscii (label option) = true) ->
  JS.isAscii searchTerm = true ->
  filteredOptions options "" = options /\
  filteredOptions options searchTerm
  = filteredOptions options (JS.toLowerCase searchTerm) /\
  (forall option, In option options ->
                  In option (filteredOptions options (label option))).
Proof.
  intros _ _. unfold filteredOptions. split; [|split].
  - induction options as [|o l IH]; [reflexivity|].
    cbn [List.filter JS.toLowerCase].
    assert (H : JS.includes (JS.toLowerCase (label o)) "" = true)
      by (destruct (JS.toLowerCase (label o)); reflexivity).
    rewrite H. f_equal. exact IH.
  - now rewrite toLowerCase_idempotent.
  - intros option Hin. apply filter_In. split; [exact Hin|apply includes_self].
Qed.

Lemma filteredOptions_ignores_case_witness :
  let options := [mkOption "or,gpt-4" "OpenRouter GPT-4";
                  mkOption "ds,chat" "DeepSeek Chat"] in
  filteredOptions options "" = options /\
  filteredOptions options "GPT" = filteredOptions options "gpt" /\
  In (mkOption "or,gpt-4" "OpenRouter GPT-4")
     (filteredOptions options "OpenRouter GPT-4").
Proof.
  cbv zeta.
  assert (Hlabels : forall option,
             In option [mkOption "or,gpt-4" "OpenRouter GPT-4";
                        mkOption "ds,chat" "DeepSeek Chat"] ->
             JS.isAscii (label option) = true)
    by (intros option [<-|[<-|[]]]; reflexivity).
  destruct (filteredOptions_ignores_case
              [mkOption "or,gpt-4" "OpenRouter GPT-4"; mkOption "ds,chat" "DeepSeek Chat"]
              "GPT" Hlabels eq_refl) as (Hall & Hcase & Hself).
  split; [exact Hall|]. split; [exact Hcase|].
  apply (Hself (mkOption "or,gpt-4" "OpenRouter GPT-4")). now left.
Defined.

End ComboboxFacts.
